(** * Text-to-PDF layout of the conversion endpoint ([convertTextToPdf])

    A shallow embedding of the function [convertTextToPdf] of the upload
    route: paragraph splitting, heading detection, greedy word wrap, the page
    cursor and the page-number pass.

    Conventions.
    - A JavaScript string is a [string]; a code unit is an [ascii].  The
      embedding is exact on 7-bit text: there [\s] and [trim] know the six
      characters TAB, LF, VT, FF, CR and SPACE, [\w] is [A-Za-z0-9_] and
      [toUpperCase] acts on [a]..[z] only.
    - Vertical and horizontal positions are integers ([Z]): every value the
      cursor takes (792, 50, 18, 12 and 1.5 times 12 or 18) is integral, so
      the double arithmetic of the source is exact on them.
    - Font sizes and text widths are rationals ([Q]).  The glyph metric
      [font.widthOfTextAtSize] belongs to the PDF library; it is a parameter
      of the development.
    - A document is its page count together with the chronological list of
      [drawText] calls, each tagged with the index of the page it was issued
      on; a page reference such as [currentPage] is that index.
    - The source creates every page with the literal size [612, 792] and
      reads [width] and [height] back from the first page.  The size is a
      parameter of the layout here, and [convertTextToPdf] is the layout on
      letter pages.
    - Of the asynchronous calls only [readFile] is given an outcome; the
      calls into the PDF library are taken to succeed and [writeFile] is
      left out. *)

From Stdlib Require Import ZArith QArith List String Ascii Bool Lia.
From Stdlib Require Import DecimalString.
Import ListNotations.

Local Open Scope string_scope.
Local Open Scope list_scope.
Local Open Scope Z_scope.

(** ** JavaScript string primitives used by the source *)

Module Js.

(** Truthiness of a string: [''] is the only falsy one. *)
Definition truthy (s : string) : bool :=
  match s with
  | EmptyString => false
  | String _ _ => true
  end.

(** The class [\s] (also the set stripped by [trim]). *)
Definition isSpace (c : ascii) : bool :=
  let n := nat_of_ascii c in
  ((9 <=? n) && (n <=? 13) || (n =? 32))%nat.

(** The class [\w]. *)
Definition isWordChar (c : ascii) : bool :=
  let n := nat_of_ascii c in
  ((48 <=? n) && (n <=? 57) || (65 <=? n) && (n <=? 90)
   || (97 <=? n) && (n <=? 122) || (n =? 95))%nat.

Definition isNewline (c : ascii) : bool := Ascii.eqb c "010"%char.

(** [s + c] for a single code unit. *)
Definition snoc (s : string) (c : ascii) : string := s ++ String c EmptyString.

Fixpoint trimStart (s : string) : string :=
  match s with
  | EmptyString => EmptyString
  | String c r => if isSpace c then trimStart r else s
  end.

Fixpoint trimEnd (s : string) : string :=
  match s with
  | EmptyString => EmptyString
  | String c r =>
      match trimEnd r with
      | EmptyString => if isSpace c then EmptyString else String c EmptyString
      | r' => String c r'
      end
  end.

(** [s.trim()] *)
Definition trim (s : string) : string := trimEnd (trimStart s).

(** [s.endsWith(t)] *)
Definition endsWith (s t : string) : bool :=
  (String.length t <=? String.length s)%nat
  && String.eqb (substring (String.length s - String.length t) (String.length t) s) t.

(** [s.includes(t)] *)
Fixpoint includes (s t : string) : bool :=
  prefix t s
  || match s with
     | EmptyString => false
     | String _ r => includes r t
     end.

Definition upperChar (c : ascii) : ascii :=
  let n := nat_of_ascii c in
  if ((97 <=? n) && (n <=? 122))%nat then ascii_of_nat (n - 32) else c.

(** [s.toUpperCase()] *)
Fixpoint toUpperCase (s : string) : string :=
  match s with
  | EmptyString => EmptyString
  | String c r => String (upperChar c) (toUpperCase r)
  end.

(** [s.split(/\s+/)].  [inRun] says that the scan is inside a separator;
    [cur] is the piece being collected.  A separator at either end of [s]
    leaves an empty piece there, as in JavaScript. *)
Fixpoint splitWs (inRun : bool) (cur : string) (s : string) : list string :=
  match s with
  | EmptyString => [cur]
  | String c r =>
      if isSpace c then
        if inRun then splitWs true EmptyString r
        else cur :: splitWs true EmptyString r
      else splitWs false (snoc cur c) r
  end.

Definition split_ws (s : string) : list string := splitWs false EmptyString s.

(** Length of the longest prefix of [s] that matches [\s*\n] (the regular
    expression is greedy, so it ends at the last line feed of the leading
    whitespace run), if there is one. *)
Fixpoint blankLen (s : string) : option nat :=
  match s with
  | EmptyString => None
  | String c r =>
      if isSpace c then
        match blankLen r with
        | Some k => Some (S k)
        | None => if isNewline c then Some 1%nat else None
        end
      else None
  end.

(** [s.split(/\n\s*\n/)].  [skip] counts the code units of the separator
    that matched and are still to be passed over. *)
Fixpoint splitBlank (skip : nat) (cur : string) (s : string) : list string :=
  match s with
  | EmptyString => [cur]
  | String c r =>
      match skip with
      | S k => splitBlank k cur r
      | O =>
          if isNewline c then
            match blankLen r with
            | Some k => cur :: splitBlank k EmptyString r
            | None => splitBlank 0 (snoc cur c) r
            end
          else splitBlank 0 (snoc cur c) r
      end
  end.

Definition split_blank (s : string) : list string := splitBlank 0 EmptyString s.

Definition isPathSep (c : ascii) : bool :=
  Ascii.eqb c "/"%char || Ascii.eqb c "\"%char.

Fixpoint hasPathSep (s : string) : bool :=
  match s with
  | EmptyString => false
  | String c r => isPathSep c || hasPathSep r
  end.

(** [s.split(/[\\/]/).pop()]: what follows the last separator. *)
Fixpoint lastSegment (s : string) : string :=
  match s with
  | EmptyString => EmptyString
  | String c r =>
      if hasPathSep r then lastSegment r
      else if isPathSep c then r else s
  end.

Fixpoint allWordChars (s : string) : bool :=
  match s with
  | EmptyString => true
  | String c r => isWordChar c && allWordChars r
  end.

(** [s.replace(/\.\w+$/, '')] *)
Fixpoint stripExtension (s : string) : string :=
  match s with
  | EmptyString => EmptyString
  | String c r =>
      if Ascii.eqb c "."%char && truthy r && allWordChars r then EmptyString
      else String c (stripExtension r)
  end.

(** Template-literal rendering of a non-negative integer. *)
Definition ofNat (n : nat) : string := NilZero.string_of_uint (Nat.to_uint n).

End Js.

(** ** The PDF document, as far as the layout uses it *)

Module PDF.

Inductive StandardFonts := Helvetica | HelveticaBold | HelveticaOblique.

Record Color := rgb { red : Q; green : Q; blue : Q }.

(** One [page.drawText(text, { x, y, size, font, color })] call. *)
Record TextRun := mkRun {
  text : string;
  x : Z;
  y : Z;
  size : Q;
  font : StandardFonts;
  color : Color
}.

(** Pages are only ever appended, so a page is known by its index. *)
Record PDFDocument := mkDoc {
  pageCount : nat;
  drawn : list (nat * TextRun)
}.

Definition create : PDFDocument := mkDoc 0 [].

(** [pdfDoc.addPage(size)]: the new document and the new page's index. *)
Definition addPage (d : PDFDocument) : PDFDocument * nat :=
  (mkDoc (S (pageCount d)) (drawn d), pageCount d).

Definition drawText (d : PDFDocument) (page : nat) (r : TextRun) : PDFDocument :=
  mkDoc (pageCount d) (drawn d ++ [(page, r)]).

Definition onPage (i : nat) (e : nat * TextRun) : bool := Nat.eqb (fst e) i.

(** [pdfDoc.getPage(i)], seen as the runs drawn on it, in drawing order. *)
Definition getPage (d : PDFDocument) (i : nat) : list TextRun :=
  map snd (filter (onPage i) (drawn d)).

(** The runs of the whole document, page after page. *)
Definition readingOrder (d : PDFDocument) : list TextRun :=
  List.concat (map (getPage d) (seq 0 (pageCount d))).

End PDF.

Import PDF.

(** ** Outcome of an asynchronous call *)

Inductive Completion (A : Type) : Type :=
| Resolved (a : A)
| Rejected (error : string).

Arguments Resolved {A} a.
Arguments Rejected {A} error.

(** ** [convertTextToPdf] *)

Definition fontSize : Z := 12.
Definition smallFontSize : Z := 10.
Definition titleFontSize : Z := 18.
(** [fontSize * 1.5] *)
Definition lineHeight : Z := fontSize * 3 / 2.
Definition margin : Z := 50.

(** Letter size, the argument of every [addPage] call of the source. *)
Definition letter : Z * Z := (612, 792).

Definition black : Color := rgb 0 0 0.
Definition gray : Color := rgb (1 # 2) (1 # 2) (1 # 2).

(** The layout cursor: the local variables [pdfDoc], [currentPage] and [y]. *)
Record Cursor := mkCursor {
  doc : PDFDocument;
  currentPage : nat;
  y : Z
}.

(** The heading test of the paragraph loop. *)
Definition isHeading (paragraph : string) : bool :=
  (String.length (Js.trim paragraph) <? 80)%nat
  && (Js.endsWith paragraph ":"
      || negb (Js.includes paragraph ".")
      || String.eqb (Js.toUpperCase paragraph) paragraph).

Definition fontOf (paragraph : string) : StandardFonts :=
  if isHeading paragraph then HelveticaBold else Helvetica.

(** [isHeading ? fontSize * 1.2 : fontSize] *)
Definition sizeOf (paragraph : string) : Q :=
  if isHeading paragraph then inject_Z fontSize * (12 # 10) else inject_Z fontSize.

Section Layout.

(** [font.widthOfTextAtSize(text, size)] of the PDF library. *)
Variable widthOfTextAtSize : StandardFonts -> string -> Q -> Q.

(** The size every page is created with; the source passes [letter]. *)
Variable pageSize : Z * Z.

Definition width : Z := fst pageSize.
Definition height : Z := snd pageSize.
Definition maxWidth : Z := width - margin * 2.

(** [y] at the top of a page added during the paragraph loop. *)
Definition topOfPage : Z := height - margin - fontSize.

Definition testLineOf (currentLine word : string) : string :=
  if Js.truthy currentLine then currentLine ++ " " ++ word else word.

Definition fits (font : StandardFonts) (size : Q) (testLine : string) : bool :=
  Qle_bool (widthOfTextAtSize font testLine size) (inject_Z maxWidth).

(** The word loop together with the final [if (currentLine) lines.push]:
    the lines pushed from [currentLine] on, in pushing order. *)
Fixpoint wrapWords (font : StandardFonts) (size : Q)
    (currentLine : string) (words : list string) : list string :=
  match words with
  | [] => if Js.truthy currentLine then [currentLine] else []
  | word :: rest =>
      let testLine := testLineOf currentLine word in
      if fits font size testLine then wrapWords font size testLine rest
      else currentLine :: wrapWords font size word rest
  end.

(** [lines] of a paragraph. *)
Definition linesOf (paragraph : string) : list string :=
  wrapWords (fontOf paragraph) (sizeOf paragraph) EmptyString (Js.split_ws paragraph).

(** [currentPage = pdfDoc.addPage(...); y = height - margin - fontSize] *)
Definition newPage (st : Cursor) : Cursor :=
  let (d, page) := addPage (doc st) in
  mkCursor d page topOfPage.

(** The line loop of one paragraph. *)
Fixpoint drawLines (font : StandardFonts) (size : Q)
    (lines : list string) (st : Cursor) : Cursor :=
  match lines with
  | [] => st
  | line :: rest =>
      let d := drawText (doc st) (currentPage st)
                 (mkRun line margin (y st) size font black) in
      let st' := mkCursor d (currentPage st) (y st - lineHeight) in
      drawLines font size rest (if y st' <? margin then newPage st' else st')
  end.

(** One turn of [for (const paragraph of paragraphs)]. *)
Definition processParagraph (st : Cursor) (paragraph : string) : Cursor :=
  if negb (Js.truthy (Js.trim paragraph)) then st
  else
    let lines := linesOf paragraph in
    let st1 :=
      if y st - Z.of_nat (List.length lines) * lineHeight <? margin
      then newPage st else st in
    let st2 := drawLines (fontOf paragraph) (sizeOf paragraph) lines st1 in
    mkCursor (doc st2) (currentPage st2) (y st2 - fontSize).

(** [textPath.split(/[\\/]/).pop() || 'Document'], extension removed. *)
Definition titleOf (textPath : string) : string :=
  let last := Js.lastSegment textPath in
  Js.stripExtension (if Js.truthy last then last else "Document").

Definition titleRun (textPath : string) : TextRun :=
  mkRun (titleOf textPath) margin (height - margin - titleFontSize)
        (inject_Z titleFontSize) HelveticaBold black.

(** The cursor once the first page exists and carries the title. *)
Definition start (textPath : string) : Cursor :=
  let (d, page) := addPage create in
  let y0 := height - margin - titleFontSize in
  mkCursor (drawText d page (titleRun textPath)) page (y0 - titleFontSize * 3 / 2).

(** Everything up to the comment [Add page numbers]. *)
Definition layoutPass (textPath textContent : string) : Cursor :=
  fold_left processParagraph (Js.split_blank textContent) (start textPath).

Definition footerText (i pageCount : nat) : string :=
  "Page " ++ Js.ofNat (i + 1) ++ " of " ++ Js.ofNat pageCount.

Definition footerRun (i pageCount : nat) : TextRun :=
  mkRun (footerText i pageCount) margin (margin / 2)
        (inject_Z smallFontSize) Helvetica gray.

(** The page-number loop. *)
Definition addPageNumbers (d : PDFDocument) : PDFDocument :=
  let pageCount := PDF.pageCount d in
  fold_left (fun d' i => drawText d' i (footerRun i pageCount)) (seq 0 pageCount) d.

(** The document handed to [pdfDoc.save()]. *)
Definition render (textPath textContent : string) : PDFDocument :=
  addPageNumbers (doc (layoutPass textPath textContent)).

(** The function itself: [readFile] is the outcome of reading [textPath];
    a rejection is logged and thrown again, otherwise the document is built. *)
Definition convertTextToPdfOn (textPath : string) (readFile : Completion string)
    : Completion PDFDocument :=
  match readFile with
  | Resolved textContent => Resolved (render textPath textContent)
  | Rejected e => Rejected e
  end.

End Layout.

Definition convertTextToPdf (widthOfTextAtSize : StandardFonts -> string -> Q -> Q) :=
  convertTextToPdfOn widthOfTextAtSize letter.

(** ** Notions used to state the properties *)

(** The words of a string: its maximal runs of non-space code units, that is
    the non-empty pieces of [split(/\s+/)]. *)
Definition words (s : string) : list string := filter Js.truthy (Js.split_ws s).


Fixpoint allSpace (s : string) : bool :=
  match s with
  | EmptyString => true
  | String c r => Js.isSpace c && allSpace r
  end.


(** A paragraph the loop does not skip. *)
Definition nonBlank (paragraph : string) : bool := Js.truthy (Js.trim paragraph).

(** The heading rule as the specification words it, on the paragraph itself. *)
Definition isHeading_spec (paragraph : string) : bool :=
  (String.length paragraph <? 80)%nat
  && (Js.endsWith paragraph ":"
      || negb (Js.includes paragraph ".")
      || String.eqb (Js.toUpperCase paragraph) paragraph).

(** What the layout needs of a glyph metric: the empty text has no width, and
    a text is at least as wide as each of its two ends, at any size that is
    not negative. *)
Record MetricOk (W : StandardFonts -> string -> Q -> Q) : Prop := {
  width_empty : forall f s, (W f EmptyString s == 0)%Q;
  width_prefix : forall f s a b, (0 <= s)%Q -> (W f a s <= W f (a ++ b)%string s)%Q;
  width_suffix : forall f s a b, (0 <= s)%Q -> (W f b s <= W f (a ++ b)%string s)%Q
}.

(** *** The cursor alone *)

(** [currentPage] is the page added last. *)
Definition Tracked (st : Cursor) : Prop := S (currentPage st) = pageCount (doc st).

Section Placement.

Variable pageSize : Z * Z.

(** Where the cursor goes once a line has been drawn at [c]. *)
Definition advance (c : nat * Z) : nat * Z :=
  if snd c - lineHeight <? margin then (S (fst c), topOfPage pageSize)
  else (fst c, snd c - lineHeight).

(** The runs of [lines], the first of them drawn at [c]. *)
Fixpoint placed (font : StandardFonts) (size : Q) (c : nat * Z)
    (lines : list string) : list (nat * TextRun) :=
  match lines with
  | [] => []
  | line :: rest =>
      (fst c, mkRun line margin (snd c) size font black)
      :: placed font size (advance c) rest
  end.

Definition cursorAfter (c : nat * Z) (lines : list string) : nat * Z :=
  fold_left (fun c' _ => advance c') lines c.

(** Where the first of [n] lines goes: the test made before the line loop. *)
Definition startOf (st : Cursor) (n : nat) : nat * Z :=
  if y st - Z.of_nat n * lineHeight <? margin
  then (pageCount (doc st), topOfPage pageSize)
  else (currentPage st, y st).

End Placement.

(** [lines] drawn one below the other on page [page], from [y0] down. *)
Fixpoint column (font : StandardFonts) (size : Q) (page : nat) (y0 : Z)
    (lines : list string) : list (nat * TextRun) :=
  match lines with
  | [] => []
  | line :: rest =>
      (page, mkRun line margin y0 size font black)
      :: column font size page (y0 - lineHeight) rest
  end.

(** *** Drawing logs *)

(** A run lies between the bottom margin and the top line of a page. *)
Definition inside (pageSize : Z * Z) (r : TextRun) : Prop :=
  margin <= PDF.y r <= topOfPage pageSize.

(** The page indices of a drawing log never decrease and start at [a] or
    later. *)
Inductive Ascending : nat -> list (nat * TextRun) -> Prop :=
| Ascending_nil a : Ascending a []
| Ascending_cons a e l :
    (a <= fst e)%nat -> Ascending (fst e) l -> Ascending a (e :: l).

(** The log is in page order and stops at the current page. *)
Definition Ordered (st : Cursor) : Prop :=
  Ascending 0 (drawn (doc st))
  /\ Forall (fun e => (fst e <= currentPage st)%nat) (drawn (doc st)).

(** A run is on a later page than the run before it, or on the same page at
    least one line height lower. *)
Definition stepsDown (e1 e2 : nat * TextRun) : Prop :=
  (fst e1 < fst e2)%nat
  \/ (fst e1 = fst e2 /\ PDF.y (snd e2) + lineHeight <= PDF.y (snd e1)).

Inductive Stepping : list (nat * TextRun) -> Prop :=
| Stepping_nil : Stepping []
| Stepping_one e : Stepping [e]
| Stepping_cons e1 e2 l :
    stepsDown e1 e2 -> Stepping (e2 :: l) -> Stepping (e1 :: e2 :: l).

(** The cursor [c] is past the last run of the log in the same sense. *)
Definition cursorPast (c : nat * Z) (log : list (nat * TextRun)) : Prop :=
  forall earlier e, log = earlier ++ [e] ->
    (fst e < fst c)%nat \/ (fst e = fst c /\ snd c + lineHeight <= PDF.y (snd e)).

Definition Spaced (st : Cursor) : Prop :=
  Stepping (drawn (doc st)) /\ cursorPast (currentPage st, y st) (drawn (doc st)).

(** *** Sample inputs *)

(** A fixed-pitch metric: every glyph is 600/1000 em wide. *)
Definition fixedPitch (_ : StandardFonts) (text : string) (size : Q) : Q :=
  inject_Z (Z.of_nat (String.length text)) * (6 # 10) * size.

(** [n] copies of [s] with [sep] between them. *)
Fixpoint copies (n : nat) (s sep : string) : string :=
  match n with
  | O => EmptyString
  | S O => s
  | S k => s ++ sep ++ copies k s sep
  end.

Definition lineFeed : string := String "010"%char EmptyString.

Definition word40 : string := copies 40 "W" "".

(** One paragraph of [n] words of forty [W].  At body size 12 one such word
    fits the usable width of 512 and two do not, under the fixed-pitch metric
    (288 and 583.2) as under Helvetica, where [W] is 944/1000 em wide (453.12
    for one word): the paragraph wraps into [n] lines. *)
Definition wideWords (n : nat) : string := copies n word40 " ".

(** 79 capitals and a line feed: a text that ends its only line. *)
Definition capitalsLine : string := (copies 79 "A" "" ++ lineFeed)%string.

(** 119 spaces and a colon. *)
Definition indentedColon : string := (copies 119 " " "" ++ ":")%string.

(** 119 letters and a colon. *)
Definition longLabel : string := (copies 119 "a" "" ++ ":")%string.

(** A word of a hundred [W], wider than any line, and two short words. *)
Definition wideFirst : string := (copies 100 "W" "" ++ " a b")%string.

(** ** The upload route, the download route and the browser form

    The route handler [POST] that calls [convertTextToPdf], its two sibling
    converters, the [GET] handler that serves what [POST] has written, and
    the part of the [ConvertToPDF] component that chooses what is sent to
    [POST].

    - The bytes of a file are a [string]; reading a file as UTF-8 is the
      identity on 7-bit content.
    - The file system is the list of the writes made, the latest first;
      directories are not modelled, and [writeFile] and [mkdir] are taken to
      succeed.
    - Calls into libraries are parameters: [path.join], [os.tmpdir],
      [uuidv4] (the [fileId] argument of [POST]), [pdfDoc.save], and the
      embedding of an image.  The drawing of the image page (double
      arithmetic) and of the placeholder page (glyphs outside 7-bit text and
      the current date) are parameters as well: [imagePdf] and
      [placeholderPdf] stand for the bytes these two functions save. *)

Module JsMore.

Definition lowerChar (c : ascii) : ascii :=
  let n := nat_of_ascii c in
  if ((65 <=? n) && (n <=? 90))%nat then ascii_of_nat (n + 32) else c.

(** [s.toLowerCase()] *)
Fixpoint toLowerCase (s : string) : string :=
  match s with
  | EmptyString => EmptyString
  | String c r => String (lowerChar c) (toLowerCase r)
  end.

Fixpoint hasChar (c : ascii) (s : string) : bool :=
  match s with
  | EmptyString => false
  | String x r => Ascii.eqb x c || hasChar c r
  end.

(** [s.split(c).pop()] for a separator [c] of one code unit. *)
Fixpoint lastPiece (c : ascii) (s : string) : string :=
  match s with
  | EmptyString => EmptyString
  | String x r =>
      if hasChar c r then lastPiece c r
      else if Ascii.eqb x c then r else s
  end.

(** [s.split(c)[0]] *)
Fixpoint firstPiece (c : ascii) (s : string) : string :=
  match s with
  | EmptyString => EmptyString
  | String x r => if Ascii.eqb x c then EmptyString else String x (firstPiece c r)
  end.

(** [list.includes(s)] *)
Definition includes (l : list string) (s : string) : bool := existsb (String.eqb s) l.

(** [s.startsWith(t)] *)
Definition startsWith (s t : string) : bool := prefix t s.

(** [a || b] on strings. *)
Definition orElse (a b : string) : string := if Js.truthy a then a else b.

End JsMore.

Module Convert.

(** A [File] of the browser or of the form data. *)
Record File := mkFile {
  name : string;
  type : string;
  size : Z;
  bytes : string
}.

Inductive Body :=
| ErrorBody (error : string)
| SuccessBody (message fileId : string)
| FileBody (content : string).

(** A response: [headers] lists the headers the handler sets itself. *)
Record Response := mkResponse {
  status : Z;
  headers : list (string * string);
  body : Body
}.

(** [NextResponse.json(body, { status })] *)
Definition json (b : Body) (st : Z) : Response := mkResponse st [] b.

(** [response.ok] *)
Definition ok (r : Response) : bool := (200 <=? status r) && (status r <=? 299).

Definition FileSystem := list (string * string).

Definition writeFile (path content : string) (fs : FileSystem) : FileSystem :=
  (path, content) :: fs.

Fixpoint readFile (path : string) (fs : FileSystem) : option string :=
  match fs with
  | [] => None
  | (p, content) :: rest => if String.eqb p path then Some content else readFile path rest
  end.

Definition existsSync (path : string) (fs : FileSystem) : bool :=
  match readFile path fs with
  | Some _ => true
  | None => false
  end.

(** The rejection of [readFile] for a path that is not there. *)
Definition ENOENT : string := "ENOENT: no such file or directory".

Definition MAX_FILE_SIZE : Z := 10 * 1024 * 1024.

Inductive ImageFormat := Jpg | Png.

(** The choice between [embedJpg], [embedPng] and the [throw]. *)
Definition imageFormatOf (imagePath : string) : option ImageFormat :=
  if Js.endsWith imagePath ".jpg" || Js.endsWith imagePath ".jpeg" then Some Jpg
  else if Js.endsWith imagePath ".png" then Some Png
  else None.

Definition quote : string := String "034"%char EmptyString.

(** The value of the [Content-Disposition] header of a download. *)
Definition contentDisposition : string :=
  ("attachment; filename=" ++ quote ++ "converted-document.pdf" ++ quote)%string.

Section Server.

Variable widthOfTextAtSize : StandardFonts -> string -> Q -> Q.
(** [path.join] *)
Variable join : string -> string -> string.
(** [os.tmpdir()] *)
Variable tmpdir : string.
(** [pdfDoc.save()] *)
Variable save : PDFDocument -> string.
(** The bytes [convertImageToPdf] saves for an image of the given format, or
    the rejection of the embedding. *)
Variable imagePdf : ImageFormat -> string -> Completion string.
(** The bytes [createPlaceholderPdf] saves for a file name, or its
    rejection. *)
Variable placeholderPdf : string -> Completion string.

(** [join(tmpdir(), 'document-converter')] *)
Definition tempDir : string := join tmpdir "document-converter".

Definition convertImageToPdf (imagePath outputPath : string) (fs : FileSystem)
    : Completion FileSystem :=
  match readFile imagePath fs with
  | None => Rejected ENOENT
  | Some imageBytes =>
      match imageFormatOf imagePath with
      | None => Rejected "Unsupported image format"
      | Some format =>
          match imagePdf format imageBytes with
          | Resolved pdfBytes => Resolved (writeFile outputPath pdfBytes fs)
          | Rejected e => Rejected e
          end
      end
  end.

(** [convertTextToPdf] with its two files. *)
Definition convertTextFile (textPath outputPath : string) (fs : FileSystem)
    : Completion FileSystem :=
  let textContent :=
    match readFile textPath fs with
    | Some content => Resolved content
    | None => Rejected ENOENT
    end in
  match convertTextToPdf widthOfTextAtSize textPath textContent with
  | Resolved pdfDoc => Resolved (writeFile outputPath (save pdfDoc) fs)
  | Rejected e => Rejected e
  end.

Definition createPlaceholderPdf (outputPath fileName : string) (fs : FileSystem)
    : Completion FileSystem :=
  match placeholderPdf fileName with
  | Resolved pdfBytes => Resolved (writeFile outputPath pdfBytes fs)
  | Rejected e => Rejected e
  end.

Definition supported : list string :=
  ["doc"; "docx"; "txt"; "rtf"; "html"; "jpg"; "jpeg"; "png"].

(** The handler of the upload route: the response and the file system it
    leaves.  [file] is [formData.get('file')], [fileId] what [uuidv4()]
    returns in this call. *)
Definition POST (file : option File) (fileId : string) (fs : FileSystem)
    : Response * FileSystem :=
  match file with
  | None => (json (ErrorBody "No file provided") 400, fs)
  | Some file =>
      if MAX_FILE_SIZE <? size file
      then (json (ErrorBody "File size exceeds the 10MB limit") 400, fs)
      else
        let fileExtension := JsMore.toLowerCase (JsMore.lastPiece "." (name file)) in
        if negb (JsMore.includes supported fileExtension)
        then (json (ErrorBody ("File type ." ++ fileExtension ++ " is not supported")%string) 400,
              fs)
        else
          let inputPath := join tempDir (fileId ++ "." ++ fileExtension)%string in
          let outputPath := join tempDir (fileId ++ ".pdf")%string in
          let fs1 := writeFile inputPath (bytes file) fs in
          let converted :=
            if JsMore.includes ["jpg"; "jpeg"; "png"] fileExtension
            then convertImageToPdf inputPath outputPath fs1
            else if JsMore.includes ["txt"; "html"; "rtf"] fileExtension
            then convertTextFile inputPath outputPath fs1
            else createPlaceholderPdf outputPath (name file) fs1 in
          match converted with
          | Resolved fs2 =>
              (json (SuccessBody "File converted successfully" fileId) 200, fs2)
          | Rejected _ => (json (ErrorBody "Failed to process file") 500, fs1)
          end
  end.

(** The handler of the download route; [fileId] is
    [searchParams.get('fileId')]. *)
Definition GET (fileId : option string) (fs : FileSystem) : Response :=
  match fileId with
  | None => json (ErrorBody "No file ID provided") 400
  | Some fileId =>
      if negb (Js.truthy fileId) then json (ErrorBody "No file ID provided") 400
      else
        let pdfPath := join tempDir (fileId ++ ".pdf")%string in
        if negb (existsSync pdfPath fs) then json (ErrorBody "File not found") 404
        else
          match readFile pdfPath fs with
          | Some pdfBuffer =>
              mkResponse 200
                [("Content-Type", "application/pdf");
                 ("Content-Disposition", contentDisposition)]
                (FileBody pdfBuffer)
          | None => json (ErrorBody "Failed to download file") 500
          end
  end.

End Server.

(** *** The [ConvertToPDF] component *)

Definition supportedFileTypes : list string :=
  ["doc"; "docx"; "xls"; "xlsx"; "ppt"; "pptx"; "txt"; "rtf"; "html"; "jpg"; "jpeg"; "png"].

(** The state [handleFileChange] writes. *)
Record FormState := mkForm {
  file : option File;
  error : option string;
  outputFileName : string
}.

(** [handleFileChange]; [selectedFile] is [e.target.files?.[0]]. *)
Definition handleFileChange (selectedFile : option File) (st : FormState) : FormState :=
  let st := mkForm (file st) None (outputFileName st) in
  match selectedFile with
  | None => st
  | Some selectedFile =>
      if MAX_FILE_SIZE <? size selectedFile
      then mkForm (file st) (Some "File exceeds the 10MB size limit.") (outputFileName st)
      else
        let fileExtension :=
          JsMore.toLowerCase (JsMore.lastPiece "." (name selectedFile)) in
        if negb (JsMore.includes supportedFileTypes fileExtension)
        then mkForm (file st)
               (Some ("File type ." ++ fileExtension
                      ++ " is not supported. Please select a supported file type.")%string)
               (outputFileName st)
        else mkForm (Some selectedFile) (error st)
               (JsMore.firstPiece "." (name selectedFile) ++ ".pdf")%string
  end.

(** The three ways of [handleConvert]. *)
Inductive Route := InBrowserImage | InBrowserDocx | ViaServer.

Definition routeOf (f : File) : Route :=
  if JsMore.startsWith (type f) "image/" then InBrowserImage
  else if Js.endsWith (name f) ".docx" then InBrowserDocx
  else ViaServer.

(** [convertUsingServerApi], given the response of the upload route: the
    address the window is sent to, or the error thrown.  The upload route
    answers in JSON only; for a body that is a file, which [response.json()]
    could not parse, the rejection stands for the parse error. *)
Definition convertUsingServerApi (response : Response) : Completion string :=
  if negb (ok response) then
    match body response with
    | ErrorBody e => Rejected (JsMore.orElse e "Server error")
    | _ => Rejected "Server error"
    end
  else
    match body response with
    | SuccessBody _ fileId => Resolved ("/api/convert/download?fileId=" ++ fileId)%string
    | ErrorBody e => Rejected (JsMore.orElse e "Conversion failed")
    | FileBody _ => Rejected "Conversion failed"
    end.

End Convert.

(** *** Notions for the routes *)

(** What is asked of [path.join] for a directory: a plain segment is put
    after the directory and one separator. *)
Definition JoinsPlainly (join : string -> string -> string) (dir : string) : Prop :=
  forall seg,
    Js.hasPathSep seg = false ->
    seg <> EmptyString -> seg <> "." -> seg <> ".." ->
    exists before c,
      Js.isPathSep c = true /\ join dir seg = (before ++ String c seg)%string.

(** [path.join] of POSIX on such arguments. *)
Definition posixJoin (dir seg : string) : string := (dir ++ "/" ++ seg)%string.



(** Sample parameters: a [save] that keeps the page count, an embedding and
    a placeholder that give their argument back. *)
Definition sampleSave (d : PDFDocument) : string := Js.ofNat (pageCount d).
Definition sampleImagePdf (_ : Convert.ImageFormat) (imageBytes : string)
    : Completion string := Resolved imageBytes.
Definition samplePlaceholderPdf (fileName : string) : Completion string :=
  Resolved fileName.

(** Consecutive runs are at least one line height apart, going down. *)
Inductive Descending : list TextRun -> Prop :=
| Descending_nil : Descending []
| Descending_one r : Descending [r]
| Descending_cons r1 r2 l :
    PDF.y r2 + lineHeight <= PDF.y r1 -> Descending (r2 :: l) ->
    Descending (r1 :: r2 :: l).

(** ** Facts about the string primitives *)

Module JsFacts.
Import Js.

Lemma append_nil_r (s : string) : (s ++ "")%string = s.
Proof. induction s as [|c s IH]; simpl; [reflexivity | now rewrite IH]. Qed.

Lemma append_assoc (a b c : string) : ((a ++ b) ++ c)%string = (a ++ (b ++ c))%string.
Proof. induction a as [|x a IH]; simpl; [reflexivity | now rewrite IH]. Qed.

Lemma length_append (a b : string) :
  String.length (a ++ b) = (String.length a + String.length b)%nat.
Proof. induction a as [|x a IH]; simpl; [reflexivity | now rewrite IH]. Qed.










End JsFacts.

(** ** The word loop *)

Section Wrap.

Variable W : StandardFonts -> string -> Q -> Q.
Variable pageSize : Z * Z.

Local Abbreviation wrap := (wrapWords W pageSize).

Lemma fits_iff f s t :
  fits W pageSize f s t = true <-> (W f t s <= inject_Z (maxWidth pageSize))%Q.
Proof. unfold fits. apply Qle_bool_iff. Qed.




Lemma prefix_refl (s : string) : prefix s s = true.
Proof. induction s as [|c s IH]; simpl; [reflexivity|]. now destruct (ascii_dec c c). Qed.

Lemma prefix_append (a b : string) : prefix a (a ++ b) = true.
Proof.
  induction a as [|c a IH]; simpl; [now destruct b|]. now destruct (ascii_dec c c).
Qed.

Lemma prefix_trans (a b c : string) :
  prefix a b = true -> prefix b c = true -> prefix a c = true.
Proof.
  revert b c. induction a as [|x a IH]; intros b c Hab Hbc.
  - now destruct c.
  - destruct b as [|y b]; [discriminate|]. destruct c as [|z c]; [discriminate|].
    simpl in *. destruct (ascii_dec x y); [subst|discriminate].
    destruct (ascii_dec y z); [subst|discriminate]. now apply (IH b).
Qed.

(** A line in progress that is not empty heads the lines still to push. *)
Lemma wrapWords_head f s ws : forall cur,
  Js.truthy cur = true ->
  exists l ls, wrap f s cur ws = l :: ls /\ prefix cur l = true.
Proof.
  induction ws as [|w rest IH]; intros cur Hcur; simpl.
  - rewrite Hcur. exists cur, []. split; [reflexivity | apply prefix_refl].
  - destruct (fits W pageSize f s (testLineOf cur w)).
    + destruct (IH (testLineOf cur w)) as (l & ls & E & P).
      { unfold testLineOf. rewrite Hcur. now destruct cur. }
      exists l, ls. split; [assumption|].
      apply prefix_trans with (b := testLineOf cur w); [|assumption].
      unfold testLineOf. rewrite Hcur. apply prefix_append.
    + exists cur, (wrap f s w rest). split; [reflexivity | apply prefix_refl].
Qed.

Section Bound.

Hypothesis metric : MetricOk W.
Hypothesis usable : 0 <= maxWidth pageSize.
Variables (f : StandardFonts) (s : Q).
Hypothesis size_pos : (0 <= s)%Q.

Local Abbreviation bound := (inject_Z (maxWidth pageSize)).

Lemma empty_fits : (W f EmptyString s <= bound)%Q.
Proof.
  rewrite (width_empty W metric). change 0%Q with (inject_Z 0).
  rewrite <- Zle_Qle. exact usable.
Qed.

Lemma testLine_wide cur w : (W f w s <= W f (testLineOf cur w) s)%Q.
Proof.
  unfold testLineOf. destruct (Js.truthy cur).
  - eapply Qle_trans; [|apply (width_suffix W metric); assumption].
    apply (width_suffix W metric f s " " w). assumption.
  - apply Qle_refl.
Qed.

(** Every pushed line fits, unless it is one of the words and that word
    alone is too wide. *)
Lemma wrapWords_bound all ws : forall cur,
  incl ws all ->
  ((W f cur s <= bound)%Q \/ (In cur all /\ (bound < W f cur s)%Q)) ->
  forall l, In l (wrap f s cur ws) ->
    (W f l s <= bound)%Q \/ (In l all /\ (bound < W f l s)%Q).
Proof.
  induction ws as [|w rest IH]; intros cur Hincl Hcur l Hl; simpl in Hl.
  - destruct (Js.truthy cur); simpl in Hl; [|contradiction].
    destruct Hl as [<-|[]]. exact Hcur.
  - assert (Hrest : incl rest all) by (intros z Hz; apply Hincl; now right).
    destruct (fits W pageSize f s (testLineOf cur w)) eqn:E.
    + apply (IH (testLineOf cur w)); auto. left. now apply fits_iff.
    + destruct Hl as [<-|Hl]; [exact Hcur|].
      apply (IH w); auto.
      destruct (Qlt_le_dec bound (W f w s)) as [Hw|Hw]; [right|now left].
      split; [apply Hincl; now left | assumption].
Qed.

(** A line in progress that is too wide is pushed as it is. *)
Lemma wrapWords_wide_current ws cur :
  (bound < W f cur s)%Q -> In cur (wrap f s cur ws).
Proof.
  intros Hw.
  assert (Ht : Js.truthy cur = true).
  { destruct cur; [|reflexivity]. exfalso.
    apply (Qlt_not_le _ _ Hw). apply empty_fits. }
  destruct ws as [|w rest]; simpl.
  - rewrite Ht. now left.
  - destruct (fits W pageSize f s (testLineOf cur w)) eqn:E; [|now left].
    exfalso. apply fits_iff in E. apply (Qlt_not_le _ _ Hw).
    eapply Qle_trans; [|exact E].
    unfold testLineOf. rewrite Ht. apply (width_prefix W metric). assumption.
Qed.

(** A word that is too wide becomes a line of its own. *)
Lemma wrapWords_wide_word ws : forall cur w,
  In w ws -> (bound < W f w s)%Q -> In w (wrap f s cur ws).
Proof.
  induction ws as [|w0 rest IH]; intros cur w Hin Hw; [contradiction|].
  simpl. destruct Hin as [->|Hin].
  - destruct (fits W pageSize f s (testLineOf cur w)) eqn:E.
    + exfalso. apply fits_iff in E. apply (Qlt_not_le _ _ Hw).
      eapply Qle_trans; [apply (testLine_wide cur w) | exact E].
    + right. now apply wrapWords_wide_current.
  - destruct (fits W pageSize f s (testLineOf cur w0)); [|right]; now apply IH.
Qed.

End Bound.

End Wrap.

Lemma sizeOf_nonneg p : (0 <= sizeOf p)%Q.
Proof. unfold sizeOf. destruct (isHeading p); discriminate. Qed.

(** ** The line loop and the paragraph loop *)

Section Cursor.

Variable W : StandardFonts -> string -> Q -> Q.
Variable pageSize : Z * Z.

Lemma placed_app f s a : forall c b,
  placed pageSize f s c (a ++ b)
  = placed pageSize f s c a ++ placed pageSize f s (cursorAfter pageSize c a) b.
Proof.
  induction a as [|l a IH]; intros c b; simpl; [reflexivity|].
  now rewrite IH.
Qed.


(** The line loop, read off the cursor alone. *)
Lemma drawLines_placed f s ls : forall st,
  Tracked st ->
  let st' := drawLines pageSize f s ls st in
  drawn (doc st') = drawn (doc st) ++ placed pageSize f s (currentPage st, y st) ls
  /\ (currentPage st', y st') = cursorAfter pageSize (currentPage st, y st) ls
  /\ Tracked st'.
Proof.
  induction ls as [|l ls IH]; intros st Ht.
  - simpl. rewrite app_nil_r. auto.
  - cbn [drawLines placed cursorAfter fold_left].
    set (st1 := mkCursor _ (currentPage st) (y st - lineHeight)).
    assert (Ht1 : Tracked st1) by exact Ht.
    assert (Hadv : forall st2, st2 = (if y st1 <? margin then newPage pageSize st1 else st1) ->
              (currentPage st2, y st2) = advance pageSize (currentPage st, y st)
              /\ Tracked st2 /\ drawn (doc st2) = drawn (doc st1)).
    { intros st2 ->. unfold advance. cbn [fst snd]. subst st1. cbn [y].
      destruct (y st - lineHeight <? margin).
      - unfold newPage, Tracked. cbn. rewrite <- Ht. auto.
      - cbn. auto. }
    destruct (Hadv _ eq_refl) as (Hc & Ht2 & Hd).
    destruct (IH _ Ht2) as (D & C & T).
    cbv zeta. rewrite D, C, Hc, Hd. subst st1. cbn [doc drawn drawText].
    rewrite <- app_assoc. auto.
Qed.

Lemma processParagraph_blank st p :
  nonBlank p = false -> processParagraph W pageSize st p = st.
Proof. unfold nonBlank, processParagraph. now intros ->. Qed.

(** One paragraph, read off the cursor alone. *)
Lemma processParagraph_placed st p :
  Tracked st -> nonBlank p = true ->
  let ls := linesOf W pageSize p in
  let c := startOf pageSize st (List.length ls) in
  let st' := processParagraph W pageSize st p in
  drawn (doc st') = drawn (doc st) ++ placed pageSize (fontOf p) (sizeOf p) c ls
  /\ currentPage st' = fst (cursorAfter pageSize c ls)
  /\ y st' = snd (cursorAfter pageSize c ls) - fontSize
  /\ Tracked st'.
Proof.
  intros Ht Hp. unfold processParagraph, nonBlank in *. rewrite Hp. cbn [negb].
  cbv zeta. unfold startOf.
  set (ls := linesOf W pageSize p).
  set (st1 := if y st - Z.of_nat (List.length ls) * lineHeight <? margin
              then newPage pageSize st else st).
  assert (H1 : Tracked st1 /\ drawn (doc st1) = drawn (doc st)
               /\ (currentPage st1, y st1)
                  = (if y st - Z.of_nat (List.length ls) * lineHeight <? margin
                     then (pageCount (doc st), topOfPage pageSize)
                     else (currentPage st, y st))).
  { subst st1. destruct (y st - Z.of_nat (List.length ls) * lineHeight <? margin).
    - unfold newPage, Tracked. cbn. auto.
    - auto. }
  destruct H1 as (Ht1 & Hd1 & Hc1).
  destruct (drawLines_placed (fontOf p) (sizeOf p) ls st1 Ht1) as (D & C & T).
  cbn [doc currentPage y]. rewrite D, Hd1, <- Hc1, <- C. cbn [fst snd].
  repeat split; auto.
Qed.

Lemma processParagraph_tracked st p :
  Tracked st -> Tracked (processParagraph W pageSize st p).
Proof.
  intros Ht. destruct (nonBlank p) eqn:Hp.
  - now apply processParagraph_placed.
  - now rewrite processParagraph_blank.
Qed.

Lemma start_tracked path : Tracked (start pageSize path).
Proof. reflexivity. Qed.

Lemma paragraphs_tracked ps : forall st,
  Tracked st -> Tracked (fold_left (processParagraph W pageSize) ps st).
Proof.
  induction ps as [|p ps IH]; intros st Ht; simpl; [assumption|].
  apply IH. now apply processParagraph_tracked.
Qed.

(** The cursor never rises above the top of a page. *)
Lemma advance_top c : snd c <= topOfPage pageSize -> snd (advance pageSize c) <= topOfPage pageSize.
Proof.
  unfold advance. destruct (snd c - lineHeight <? margin); cbn [snd]; [lia|].
  unfold lineHeight, fontSize. cbn. lia.
Qed.

Lemma cursorAfter_top ls : forall c,
  snd c <= topOfPage pageSize -> snd (cursorAfter pageSize c ls) <= topOfPage pageSize.
Proof.
  induction ls as [|l ls IH]; intros c Hc; simpl; [assumption|].
  apply IH. now apply advance_top.
Qed.

Lemma advance_page c : (fst c <= fst (advance pageSize c))%nat.
Proof. unfold advance. destruct (snd c - lineHeight <? margin); cbn [fst]; lia. Qed.

Lemma cursorAfter_page ls : forall c, (fst c <= fst (cursorAfter pageSize c ls))%nat.
Proof.
  induction ls as [|l ls IH]; intros c; simpl; [lia|].
  etransitivity; [apply advance_page | apply IH].
Qed.

Lemma startOf_top st n :
  y st <= topOfPage pageSize -> snd (startOf pageSize st n) <= topOfPage pageSize.
Proof. intros H. unfold startOf. destruct (_ <? _); cbn [snd]; lia. Qed.

Lemma processParagraph_top st p :
  Tracked st -> y st <= topOfPage pageSize ->
  y (processParagraph W pageSize st p) <= topOfPage pageSize.
Proof.
  intros Ht Hy. destruct (nonBlank p) eqn:Hp.
  - destruct (processParagraph_placed st p Ht Hp) as (_ & _ & Y & _).
    rewrite Y.
    pose proof (cursorAfter_top (linesOf W pageSize p) _
                  (startOf_top st (List.length (linesOf W pageSize p)) Hy)).
    unfold fontSize. lia.
  - now rewrite processParagraph_blank.
Qed.

Lemma paragraphs_top ps : forall st,
  Tracked st -> y st <= topOfPage pageSize ->
  y (fold_left (processParagraph W pageSize) ps st) <= topOfPage pageSize.
Proof.
  induction ps as [|p ps IH]; intros st Ht Hy; simpl; [assumption|].
  apply IH; [now apply processParagraph_tracked | now apply processParagraph_top].
Qed.

Lemma start_top path : y (start pageSize path) <= topOfPage pageSize.
Proof.
  unfold start, topOfPage. cbn [y addPage create]. unfold titleFontSize, fontSize.
  change (18 * 3 / 2) with 27. lia.
Qed.

(** The drawing log only grows and pages are only added. *)
Lemma processParagraph_grows st p :
  Tracked st ->
  (exists more, drawn (doc (processParagraph W pageSize st p)) = drawn (doc st) ++ more)
  /\ (pageCount (doc st) <= pageCount (doc (processParagraph W pageSize st p)))%nat.
Proof.
  intros Ht. destruct (nonBlank p) eqn:Hp.
  - destruct (processParagraph_placed st p Ht Hp) as (D & C & _ & T).
    split; [eexists; exact D|].
    unfold Tracked in *. rewrite <- T, <- Ht, C. apply le_n_S.
    etransitivity; [|apply cursorAfter_page].
    unfold startOf. destruct (_ <? _); cbn [fst]; lia.
  - rewrite processParagraph_blank by assumption. split; [exists []; now rewrite app_nil_r | lia].
Qed.

Lemma paragraphs_grow ps : forall st,
  Tracked st ->
  (exists more, drawn (doc (fold_left (processParagraph W pageSize) ps st))
                = drawn (doc st) ++ more)
  /\ (pageCount (doc st)
      <= pageCount (doc (fold_left (processParagraph W pageSize) ps st)))%nat.
Proof.
  induction ps as [|p ps IH]; intros st Ht; simpl.
  - split; [exists []; now rewrite app_nil_r | lia].
  - destruct (processParagraph_grows st p Ht) as ((m1 & D1) & P1).
    destruct (IH _ (processParagraph_tracked st p Ht)) as ((m2 & D2) & P2).
    split; [exists (m1 ++ m2); now rewrite D2, D1, app_assoc | lia].
Qed.

End Cursor.

(** ** Page order of the drawing log *)

Lemma Ascending_weaken a b l : (a <= b)%nat -> Ascending b l -> Ascending a l.
Proof. intros Hab H. destruct H; constructor; [lia | assumption]. Qed.

Lemma Ascending_lower a l : Ascending a l -> Forall (fun e => (a <= fst e)%nat) l.
Proof.
  induction 1 as [|a e l Hae _ IH]; constructor; [assumption|].
  eapply Forall_impl; [|exact IH]. cbn. intros; lia.
Qed.

Lemma Ascending_app a b l1 l2 :
  Ascending a l1 -> Forall (fun e => (fst e <= b)%nat) l1 -> (a <= b)%nat ->
  Ascending b l2 -> Ascending a (l1 ++ l2).
Proof.
  intros H1. revert b. induction H1 as [|a e l Hae _ IH]; intros b Hup Hab H2; simpl.
  - now apply Ascending_weaken with b.
  - inversion Hup; subst. constructor; [assumption|]. now apply IH with b.
Qed.

(** An ascending log splits into what is on its first page and the rest. *)
Lemma Ascending_split a l :
  Ascending a l ->
  exists la lb, l = la ++ lb /\ Forall (fun e => fst e = a) la /\ Ascending (S a) lb.
Proof.
  induction 1 as [a|a e l Hae Hl IH].
  - exists [], []. repeat split; constructor.
  - destruct (Nat.eq_dec (fst e) a) as [E|N].
    + rewrite E in IH. destruct IH as (la & lb & -> & Fa & Ab).
      exists (e :: la), lb. repeat split; [constructor|]; assumption.
    + exists [], (e :: l). repeat split; [constructor|].
      constructor; [lia | assumption].
Qed.

Lemma filter_onPage_all i l :
  Forall (fun e : nat * TextRun => fst e = i) l -> filter (onPage i) l = l.
Proof.
  induction 1 as [|e l He _ IH]; simpl; [reflexivity|].
  unfold onPage at 1. rewrite He, Nat.eqb_refl. now rewrite IH.
Qed.

Lemma filter_onPage_none i l :
  Forall (fun e : nat * TextRun => fst e <> i) l -> filter (onPage i) l = [].
Proof.
  induction 1 as [|e l He _ IH]; simpl; [reflexivity|].
  unfold onPage at 1. apply Nat.eqb_neq in He. now rewrite He.
Qed.

(** Reading an ascending log page after page gives the log back. *)
Lemma pages_of_ascending n : forall a l,
  Ascending a l -> Forall (fun e => (fst e < a + n)%nat) l ->
  List.concat (map (fun i => map snd (filter (onPage i) l)) (seq a n)) = map snd l.
Proof.
  induction n as [|n IH]; intros a l Hasc Hup.
  - destruct Hasc as [|a e l Hae _]; [reflexivity|]. inversion Hup; subst. lia.
  - destruct (Ascending_split a l Hasc) as (la & lb & -> & Fa & Ab).
    pose proof (Ascending_lower _ _ Ab) as Lb.
    cbn [seq map List.concat].
    rewrite filter_app, filter_onPage_all by assumption.
    rewrite (filter_onPage_none a lb), app_nil_r
      by (eapply Forall_impl; [|exact Lb]; cbn; intros; lia).
    rewrite map_app. f_equal.
    rewrite <- (IH (S a) lb Ab).
    + f_equal. apply map_ext_in. intros i Hi. apply in_seq in Hi.
      rewrite filter_app, (filter_onPage_none i la); [reflexivity|].
      eapply Forall_impl; [|exact Fa]. cbn. intros; lia.
    + apply Forall_app in Hup as [_ Hup].
      eapply Forall_impl; [|exact Hup]. cbn. intros; lia.
Qed.

Section Order.

Variable W : StandardFonts -> string -> Q -> Q.
Variable pageSize : Z * Z.

Lemma placed_ascending f s ls : forall c,
  Ascending (fst c) (placed pageSize f s c ls)
  /\ Forall (fun e => (fst e <= fst (cursorAfter pageSize c ls))%nat)
            (placed pageSize f s c ls).
Proof.
  induction ls as [|l ls IH]; intros c.
  - split; constructor.
  - change (cursorAfter pageSize c (l :: ls))
      with (cursorAfter pageSize (advance pageSize c) ls).
    cbn [placed].
    destruct (IH (advance pageSize c)) as [A U].
    pose proof (advance_page pageSize c) as Hc.
    pose proof (cursorAfter_page pageSize ls (advance pageSize c)) as Hc'.
    split.
    + constructor; [cbn [fst]; lia|]. cbn [fst]. now apply Ascending_weaken with (2 := A).
    + constructor; [cbn [fst]; lia | exact U].
Qed.

Lemma processParagraph_ordered st p :
  Tracked st -> Ordered st -> Ordered (processParagraph W pageSize st p).
Proof.
  intros Ht [A U]. destruct (nonBlank p) eqn:Hp;
    [|rewrite processParagraph_blank by assumption; now split].
  destruct (processParagraph_placed W pageSize st p Ht Hp) as (D & C & _ & _).
  set (ls := linesOf W pageSize p) in *.
  set (c := startOf pageSize st (List.length ls)) in *.
  assert (Hc : (currentPage st <= fst c)%nat).
  { subst c. unfold startOf. destruct (_ <? _); cbn [fst]; [|lia].
    unfold Tracked in Ht. lia. }
  destruct (placed_ascending (fontOf p) (sizeOf p) ls c) as [A' U'].
  pose proof (cursorAfter_page pageSize ls c) as Hc'.
  unfold Ordered. rewrite D, C. split.
  - apply Ascending_app with (b := fst c); auto; [|lia].
    eapply Forall_impl; [|exact U]. cbn. intros; lia.
  - apply Forall_app. split; [|exact U'].
    eapply Forall_impl; [|exact U]. cbn. intros; lia.
Qed.

Lemma paragraphs_ordered ps : forall st,
  Tracked st -> Ordered st -> Ordered (fold_left (processParagraph W pageSize) ps st).
Proof.
  induction ps as [|p ps IH]; intros st Ht Ho; simpl; [assumption|].
  apply IH; [now apply processParagraph_tracked | now apply processParagraph_ordered].
Qed.

Lemma start_ordered path : Ordered (start pageSize path).
Proof.
  split; cbn.
  - constructor; [cbn; lia | constructor].
  - constructor; [cbn; lia | constructor].
Qed.

(** Page after page, the document reads as it was drawn. *)
Lemma readingOrder_layoutPass path text :
  readingOrder (doc (layoutPass W pageSize path text))
  = map snd (drawn (doc (layoutPass W pageSize path text))).
Proof.
  unfold layoutPass.
  pose proof (paragraphs_tracked W pageSize (Js.split_blank text) _
                (start_tracked pageSize path)) as Ht.
  destruct (paragraphs_ordered (Js.split_blank text) _
              (start_tracked pageSize path) (start_ordered path)) as [A U].
  set (st := fold_left _ _ _) in *.
  unfold readingOrder, getPage.
  apply pages_of_ascending with (a := 0%nat); [exact A|].
  eapply Forall_impl; [|exact U]. intros e He. cbv beta in *.
  unfold Tracked in Ht. lia.
Qed.


End Order.

(** ** Letter-size pages *)

Lemma lineHeight_eq : lineHeight = 18.
Proof. reflexivity. Qed.

Lemma margin_eq : margin = 50.
Proof. reflexivity. Qed.

Lemma top_letter : topOfPage letter = 730.
Proof. reflexivity. Qed.

(** Lines that all fit above the margin stay on the page they start on. *)
Lemma placed_column pageSize f s ls : forall pg y0,
  margin <= y0 - lineHeight * (Z.of_nat (List.length ls) - 1) ->
  placed pageSize f s (pg, y0) ls = column f s pg y0 ls
  /\ (ls <> [] ->
      cursorAfter pageSize (pg, y0) ls
      = advance pageSize (pg, y0 - lineHeight * (Z.of_nat (List.length ls) - 1))).
Proof.
  induction ls as [|l r IH]; intros pg y0 Hy.
  - split; [reflexivity | congruence].
  - destruct r as [|l2 r'].
    + split; [reflexivity|]. intros _. cbn [cursorAfter fold_left List.length].
      f_equal. f_equal. rewrite lineHeight_eq. lia.
    + assert (Hadv : advance pageSize (pg, y0) = (pg, y0 - lineHeight)).
      { unfold advance. cbn [fst snd]. rewrite lineHeight_eq, margin_eq in *.
        cbn [List.length] in Hy.
        destruct (y0 - 18 <? 50) eqn:E; [apply Z.ltb_lt in E; lia | reflexivity]. }
      destruct (IH pg (y0 - lineHeight)) as [P C].
      { rewrite lineHeight_eq in *. cbn [List.length] in *. lia. }
      split.
      * cbn [placed column fst snd]. rewrite Hadv. f_equal. exact P.
      * intros _. change (cursorAfter pageSize (pg, y0) (l :: l2 :: r'))
          with (cursorAfter pageSize (advance pageSize (pg, y0)) (l2 :: r')).
        rewrite Hadv, C by discriminate. f_equal. f_equal.
        rewrite lineHeight_eq. cbn [List.length]. lia.
Qed.

Lemma advance_inside c :
  snd c <= topOfPage letter ->
  margin <= snd (advance letter c) <= topOfPage letter.
Proof.
  intros Hc. unfold advance. rewrite top_letter, lineHeight_eq, margin_eq in *.
  destruct (snd c - 18 <? 50) eqn:E; cbn [snd].
  - lia.
  - apply Z.ltb_ge in E. lia.
Qed.

Lemma placed_inside f s ls : forall c,
  margin <= snd c <= topOfPage letter ->
  Forall (fun e => inside letter (snd e)) (placed letter f s c ls).
Proof.
  induction ls as [|l r IH]; intros c Hc; cbn [placed]; constructor.
  - exact Hc.
  - apply IH. apply advance_inside. lia.
Qed.

Lemma startOf_inside st n :
  y st <= topOfPage letter -> (0 < n)%nat ->
  margin <= snd (startOf letter st n) <= topOfPage letter.
Proof.
  intros Hy Hn. unfold startOf. rewrite top_letter, lineHeight_eq, margin_eq in *.
  destruct (y st - Z.of_nat n * 18 <? 50) eqn:E; cbn [snd].
  - lia.
  - apply Z.ltb_ge in E. lia.
Qed.

(** A block of two lines or more keeps its second line on the page of the
    first. *)
Lemma startOf_second st n :
  y st <= topOfPage letter -> (2 <= n)%nat ->
  advance letter (startOf letter st n)
  = (fst (startOf letter st n), snd (startOf letter st n) - lineHeight).
Proof.
  intros Hy Hn. unfold startOf, advance.
  rewrite top_letter, lineHeight_eq, margin_eq in *.
  destruct (y st - Z.of_nat n * 18 <? 50) eqn:B; cbn [fst snd].
  - reflexivity.
  - apply Z.ltb_ge in B.
    destruct (y st - 18 <? 50) eqn:B2; [apply Z.ltb_lt in B2; lia | reflexivity].
Qed.

Section Letter.

Variable W : StandardFonts -> string -> Q -> Q.

Lemma processParagraph_inside st p :
  Tracked st -> y st <= topOfPage letter ->
  Forall (fun e => inside letter (snd e)) (drawn (doc st)) ->
  Forall (fun e => inside letter (snd e)) (drawn (doc (processParagraph W letter st p))).
Proof.
  intros Ht Hy Hd. destruct (nonBlank p) eqn:Hp;
    [|now rewrite processParagraph_blank].
  destruct (processParagraph_placed W letter st p Ht Hp) as (D & _).
  rewrite D. apply Forall_app. split; [assumption|].
  destruct (linesOf W letter p) as [|l r] eqn:E; [constructor|].
  apply placed_inside. apply startOf_inside; [assumption | cbn; lia].
Qed.

Lemma paragraphs_inside ps : forall st,
  Tracked st -> y st <= topOfPage letter ->
  Forall (fun e => inside letter (snd e)) (drawn (doc st)) ->
  Forall (fun e => inside letter (snd e))
         (drawn (doc (fold_left (processParagraph W letter) ps st))).
Proof.
  induction ps as [|p ps IH]; intros st Ht Hy Hd; simpl; [assumption|].
  apply IH.
  - now apply processParagraph_tracked.
  - now apply processParagraph_top.
  - now apply processParagraph_inside.
Qed.

(** The state in which the paragraph after [before] is processed. *)
Lemma reached path before :
  let st := fold_left (processParagraph W letter) before (start letter path) in
  Tracked st /\ y st <= 730 /\ (1 <= pageCount (doc st))%nat.
Proof.
  cbv zeta. repeat split.
  - apply paragraphs_tracked, start_tracked.
  - rewrite <- top_letter. apply paragraphs_top; [apply start_tracked | apply start_top].
  - destruct (paragraphs_grow W letter before _ (start_tracked letter path)) as [_ H].
    exact H.
Qed.

(** The layout pass, cut at one of its paragraphs. *)
Lemma layoutPass_cut path text before p after :
  Js.split_blank text = before ++ p :: after ->
  let st := fold_left (processParagraph W letter) before (start letter path) in
  layoutPass W letter path text
  = fold_left (processParagraph W letter) after (processParagraph W letter st p).
Proof. intros E. unfold layoutPass. now rewrite E, fold_left_app. Qed.

End Letter.

(** ** The page-number pass *)

Lemma stamp_all N js : forall d,
  fold_left (fun d' i => drawText d' i (footerRun i N)) js d
  = mkDoc (pageCount d) (drawn d ++ map (fun i => (i, footerRun i N)) js).
Proof.
  induction js as [|j js IH]; intros d; simpl.
  - rewrite app_nil_r. now destruct d.
  - rewrite IH. cbn. now rewrite <- app_assoc.
Qed.

Lemma addPageNumbers_drawn d :
  addPageNumbers d
  = mkDoc (pageCount d)
      (drawn d ++ map (fun i => (i, footerRun i (pageCount d))) (seq 0 (pageCount d))).
Proof. unfold addPageNumbers. apply stamp_all. Qed.

Lemma filter_stamps (h : nat -> TextRun) i n : forall a,
  filter (onPage i) (map (fun j => (j, h j)) (seq a n))
  = if ((a <=? i) && (i <? a + n))%nat then [(i, h i)] else [].
Proof.
  induction n as [|n IH]; intros a; cbn [seq map filter].
  - destruct (a <=? i)%nat eqn:E1; [|reflexivity].
    destruct (i <? a + 0)%nat eqn:E2; [|reflexivity].
    apply Nat.leb_le in E1. apply Nat.ltb_lt in E2. lia.
  - rewrite IH. unfold onPage at 1. cbn [fst].
    destruct (Nat.eqb_spec a i) as [->|N].
    + rewrite Nat.leb_refl.
      replace (S i <=? i)%nat with false by (symmetry; apply Nat.leb_gt; lia).
      replace (i <? i + S n)%nat with true by (symmetry; apply Nat.ltb_lt; lia).
      reflexivity.
    + destruct (S a <=? i)%nat eqn:E1.
      * apply Nat.leb_le in E1.
        replace (a <=? i)%nat with true by (symmetry; apply Nat.leb_le; lia).
        replace (S a + n)%nat with (a + S n)%nat by lia. reflexivity.
      * apply Nat.leb_gt in E1. cbn [andb].
        replace (a <=? i)%nat with false by (symmetry; apply Nat.leb_gt; lia).
        reflexivity.
Qed.

Lemma getPage_addPageNumbers d i :
  (i < pageCount d)%nat ->
  getPage (addPageNumbers d) i = getPage d i ++ [footerRun i (pageCount d)].
Proof.
  intros Hi. rewrite addPageNumbers_drawn. unfold getPage. cbn [drawn].
  rewrite filter_app, map_app, filter_stamps.
  replace (0 <=? i)%nat with true by (symmetry; apply Nat.leb_le; lia).
  replace (i <? 0 + pageCount d)%nat with true by (symmetry; apply Nat.ltb_lt; lia).
  reflexivity.
Qed.

(** ** Blank paragraphs *)

Lemma trimEnd_truthy c r :
  Js.isSpace c = false -> Js.truthy (Js.trimEnd (String c r)) = true.
Proof. intros Hc. cbn [Js.trimEnd]. rewrite Hc. now destruct (Js.trimEnd r). Qed.

Lemma blank_allSpace p : nonBlank p = false -> allSpace p = true.
Proof.
  unfold nonBlank, Js.trim. induction p as [|c r IH]; [reflexivity|].
  cbn [Js.trimStart allSpace]. destruct (Js.isSpace c) eqn:Hc.
  - exact IH.
  - now rewrite trimEnd_truthy.
Qed.

Lemma allSpace_pieces s : forall b,
  allSpace s = true -> Forall (fun t => t = EmptyString) (Js.splitWs b EmptyString s).
Proof.
  induction s as [|c r IH]; intros b Hs; cbn [Js.splitWs].
  - now constructor.
  - cbn [allSpace] in Hs. apply andb_true_iff in Hs as [Hc Hr]. rewrite Hc.
    destruct b; [|constructor; [reflexivity|]]; now apply IH.
Qed.

(** A paragraph with a piece that is not empty is not skipped. *)
Lemma piece_nonBlank p w :
  In w (Js.split_ws p) -> Js.truthy w = true -> nonBlank p = true.
Proof.
  intros Hin Hw. destruct (nonBlank p) eqn:Hp; [reflexivity|].
  pose proof (allSpace_pieces p false (blank_allSpace p Hp)) as H.
  rewrite Forall_forall in H. rewrite (H w Hin) in Hw. discriminate.
Qed.

(** ** One paragraph among the others *)

Section Blocks.

Variable W : StandardFonts -> string -> Q -> Q.

(** The runs of one paragraph inside the log of the whole pass. *)
Lemma paragraph_runs path text before p after :
  Js.split_blank text = before ++ p :: after -> nonBlank p = true ->
  let st := fold_left (processParagraph W letter) before (start letter path) in
  let ls := linesOf W letter p in
  let c := startOf letter st (List.length ls) in
  exists more,
    drawn (doc (layoutPass W letter path text))
    = drawn (doc st) ++ placed letter (fontOf p) (sizeOf p) c ls ++ more
    /\ (S (fst (cursorAfter letter c ls))
        <= pageCount (doc (layoutPass W letter path text)))%nat.
Proof.
  intros E Hp. cbv zeta. rewrite (layoutPass_cut W path text before p after E).
  cbv zeta.
  set (st := fold_left (processParagraph W letter) before (start letter path)).
  destruct (reached W path before) as (Ht & _ & _). fold st in Ht.
  destruct (processParagraph_placed W letter st p Ht Hp) as (D & C & _ & T).
  destruct (paragraphs_grow W letter after _ T) as [(more & G) Pc].
  exists more. split.
  - rewrite G, D. now rewrite app_assoc.
  - unfold Tracked in T. rewrite <- C, T. exact Pc.
Qed.

(** At most 38 lines: one column, wherever the block starts. *)
Lemma short_block st f s ls :
  y st <= 730 -> (List.length ls <= 38)%nat ->
  let c := startOf letter st (List.length ls) in
  placed letter f s c ls = column f s (fst c) (snd c) ls.
Proof.
  intros Hy Hn. cbv zeta. destruct ls as [|l r]; [reflexivity|].
  set (ls := l :: r) in *.
  assert (Hpos : (0 < List.length ls)%nat) by (subst ls; cbn; lia).
  destruct (startOf letter st (List.length ls)) as [pg y0] eqn:E.
  cbn [fst snd]. apply placed_column.
  unfold startOf in E. rewrite top_letter, lineHeight_eq, margin_eq in *.
  destruct (y st - Z.of_nat (List.length ls) * 18 <? 50) eqn:B;
    injection E as <- <-.
  - lia.
  - apply Z.ltb_ge in B. lia.
Qed.

(** More than 38 lines: the block starts a page, fills it with 38 lines and
    goes on at the top of the next page. *)
Lemma long_block st f s ls :
  y st <= 730 -> (38 < List.length ls)%nat ->
  let pg := pageCount (doc st) in
  startOf letter st (List.length ls) = (pg, 730)
  /\ (S pg <= fst (cursorAfter letter (pg, 730%Z) ls))%nat
  /\ exists l39 rest,
       skipn 38 ls = l39 :: rest
       /\ placed letter f s (pg, 730) ls
          = column f s pg 730 (firstn 38 ls)
            ++ (S pg, mkRun l39 margin 730 s f black)
               :: placed letter f s (advance letter (S pg, 730)) rest.
Proof.
  intros Hy Hn. cbv zeta.
  set (pg := pageCount (doc st)).
  assert (Hs : startOf letter st (List.length ls) = (pg, 730)).
  { unfold startOf. rewrite top_letter, lineHeight_eq, margin_eq.
    destruct (y st - Z.of_nat (List.length ls) * 18 <? 50) eqn:B; [reflexivity|].
    apply Z.ltb_ge in B. lia. }
  assert (Hlen : List.length (firstn 38 ls) = 38%nat)
    by (rewrite length_firstn; lia).
  destruct (placed_column letter f s (firstn 38 ls) pg 730) as [P C].
  { rewrite Hlen, lineHeight_eq, margin_eq. lia. }
  assert (Hc : cursorAfter letter (pg, 730) (firstn 38 ls) = (S pg, 730)).
  { rewrite C by (intros E; rewrite E in Hlen; discriminate).
    rewrite Hlen. reflexivity. }
  destruct (skipn 38 ls) as [|l39 rest] eqn:Hsk.
  { pose proof (length_skipn 38 ls) as L. rewrite Hsk in L. cbn in L. lia. }
  split; [exact Hs|]. split.
  - rewrite <- (firstn_skipn 38 ls) at 1. unfold cursorAfter.
    rewrite fold_left_app. fold (cursorAfter letter (pg, 730) (firstn 38 ls)).
    rewrite Hc. apply (cursorAfter_page letter (skipn 38 ls) (S pg, 730)).
  - exists l39, rest. split; [reflexivity|].
    rewrite <- (firstn_skipn 38 ls) at 1.
    rewrite placed_app, P, Hc, Hsk. reflexivity.
Qed.

End Blocks.

(** ** The fixed-pitch metric *)

Lemma fixedPitch_ok : MetricOk fixedPitch.
Proof.
  assert (M : forall (a b : string) (s : Q), (0 <= s)%Q ->
            (String.length a <= String.length b)%nat ->
            (fixedPitch Helvetica a s <= fixedPitch Helvetica b s)%Q).
  { intros a b s Hs Hab. unfold fixedPitch.
    apply Qmult_le_compat_r; [|assumption].
    apply Qmult_le_compat_r; [|discriminate].
    rewrite <- Zle_Qle. lia. }
  constructor.
  - intros f s. unfold fixedPitch. cbn. ring.
  - intros f s a b Hs. apply (M a (a ++ b)%string s Hs).
    rewrite JsFacts.length_append. lia.
  - intros f s a b Hs. apply (M b (a ++ b)%string s Hs).
    rewrite JsFacts.length_append. lia.
Qed.

(** ** Paragraphs of a text *)









Lemma allSpace_blank p : allSpace p = true -> nonBlank p = false.
Proof.
  unfold nonBlank, Js.trim. induction p as [|c r IH]; [reflexivity|].
  cbn [allSpace Js.trimStart]. intros H. apply andb_true_iff in H as [Hc Hr].
  rewrite Hc. now apply IH.
Qed.

Lemma allSpace_snoc cur c :
  allSpace cur = true -> Js.isSpace c = true -> allSpace (Js.snoc cur c) = true.
Proof.
  intros Hcur Hc. induction cur as [|x cur IH]; cbn in *.
  - now rewrite Hc.
  - apply andb_true_iff in Hcur as [Hx Hr]. rewrite Hx. now apply IH.
Qed.

(** A text of white space has blank paragraphs only. *)
Lemma splitBlank_allSpace s : forall k cur,
  allSpace cur = true -> allSpace s = true ->
  Forall (fun p => nonBlank p = false) (Js.splitBlank k cur s).
Proof.
  induction s as [|c r IH]; intros k cur Hcur Hs; cbn [Js.splitBlank].
  - constructor; [now apply allSpace_blank | constructor].
  - cbn [allSpace] in Hs. apply andb_true_iff in Hs as [Hc Hr].
    assert (Hgo : Forall (fun p => nonBlank p = false) (Js.splitBlank 0 (Js.snoc cur c) r))
      by (apply IH; [now apply allSpace_snoc | assumption]).
    destruct k as [|k']; [|now apply IH].
    destruct (Js.isNewline c); [|exact Hgo].
    destruct (Js.blankLen r); [|exact Hgo].
    constructor; [now apply allSpace_blank | now apply IH].
Qed.

Lemma blank_paragraphs_skipped W pageSize ps : forall st,
  Forall (fun p => nonBlank p = false) ps ->
  fold_left (processParagraph W pageSize) ps st = st.
Proof.
  induction ps as [|p ps IH]; intros st H; [reflexivity|].
  inversion H; subst. cbn [fold_left].
  rewrite processParagraph_blank by assumption. now apply IH.
Qed.

(** ** Lines do not overprint *)

Lemma Stepping_snoc log e :
  Stepping log ->
  (forall earlier e0, log = earlier ++ [e0] -> stepsDown e0 e) ->
  Stepping (log ++ [e]).
Proof.
  induction 1 as [|e1|e1 e2 l Hs _ IH]; intros Hlast; cbn [app].
  - constructor.
  - constructor; [|constructor]. now apply (Hlast []).
  - constructor; [exact Hs|]. apply IH. intros earlier e0 E.
    apply (Hlast (e1 :: earlier)). cbn [app]. now rewrite E.
Qed.

Section Overprint.

Variable W : StandardFonts -> string -> Q -> Q.
Variable pageSize : Z * Z.

Lemma cursorPast_advance c log l f s :
  cursorPast (advance pageSize c)
    (log ++ [(fst c, mkRun l margin (snd c) s f black)]).
Proof.
  intros earlier e E. apply app_inj_tail in E as [_ <-]. cbn [fst snd PDF.y].
  unfold advance. destruct (snd c - lineHeight <? margin); cbn [fst snd]; [left|right]; lia.
Qed.

Lemma placed_stepping f s ls : forall c log,
  Stepping log -> cursorPast c log ->
  Stepping (log ++ placed pageSize f s c ls)
  /\ cursorPast (cursorAfter pageSize c ls) (log ++ placed pageSize f s c ls).
Proof.
  induction ls as [|l r IH]; intros c log Hs Hc.
  - cbn [placed]. rewrite app_nil_r. auto.
  - cbn [placed].
    change (cursorAfter pageSize c (l :: r))
      with (cursorAfter pageSize (advance pageSize c) r).
    change (log ++ (fst c, mkRun l margin (snd c) s f black)
                   :: placed pageSize f s (advance pageSize c) r)
      with (log ++ [(fst c, mkRun l margin (snd c) s f black)]
                ++ placed pageSize f s (advance pageSize c) r).
    rewrite app_assoc. apply IH.
    + apply Stepping_snoc; [exact Hs|]. intros earlier e0 E.
      exact (Hc earlier e0 E).
    + apply cursorPast_advance.
Qed.

Lemma processParagraph_spaced st p :
  Tracked st -> Spaced st -> Spaced (processParagraph W pageSize st p).
Proof.
  intros Ht [Hs Hc]. destruct (nonBlank p) eqn:Hp;
    [|rewrite processParagraph_blank by assumption; now split].
  destruct (processParagraph_placed W pageSize st p Ht Hp) as (D & C & Y & _).
  set (ls := linesOf W pageSize p) in *.
  set (c := startOf pageSize st (List.length ls)) in *.
  assert (Hc' : cursorPast c (drawn (doc st))).
  { intros earlier e E. specialize (Hc earlier e E). cbn [fst snd] in Hc.
    subst c. unfold startOf. destruct (_ <? _); cbn [fst snd]; [|exact Hc].
    left. unfold Tracked in Ht. lia. }
  destruct (placed_stepping (fontOf p) (sizeOf p) ls c _ Hs Hc') as [S1 S2].
  unfold Spaced. rewrite D, C, Y. split; [exact S1|].
  intros earlier e E. specialize (S2 earlier e E). cbn [fst snd].
  unfold fontSize. destruct S2 as [S2|[S2 S3]]; [left | right]; lia.
Qed.

Lemma paragraphs_spaced ps : forall st,
  Tracked st -> Spaced st -> Spaced (fold_left (processParagraph W pageSize) ps st).
Proof.
  induction ps as [|p ps IH]; intros st Ht Ho; simpl; [assumption|].
  apply IH; [now apply processParagraph_tracked | now apply processParagraph_spaced].
Qed.

Lemma start_spaced path : Spaced (start pageSize path).
Proof.
  split; cbn [start addPage create doc drawn drawText app currentPage y pageCount].
  - constructor.
  - intros earlier e E. symmetry in E.
    apply (app_inj_tail earlier []) in E as [_ ->].
    right. cbn [fst snd PDF.y titleRun]. split; [reflexivity|].
    rewrite lineHeight_eq. unfold titleFontSize. change (18 * 3 / 2) with 27. lia.
Qed.

End Overprint.

(** ** Properties of the layout *)

(** C8.  No run of the layout pass, title or text line, is drawn under the
    bottom margin: on letter pages every one of them has its baseline between
    [margin] (50) and the top line of a page (730).  The cursor is moved to a
    new page before a line could be drawn lower. *)
Theorem no_line_below_margin
    (W : StandardFonts -> string -> Q -> Q) (textPath textContent : string) :
  Forall (fun e => margin <= PDF.y (snd e) <= topOfPage letter)
         (drawn (doc (layoutPass W letter textPath textContent))).
Proof.
  unfold layoutPass.
  apply (paragraphs_inside W).
  - apply start_tracked.
  - apply start_top.
  - constructor; [|constructor]. split; vm_compute; discriminate.
Qed.


(** C5.  In the finished document every page [i] (counted from 0) carries,
    after what the layout drew on it, one run [Page i+1 of N] at (50, 25),
    size 10, in gray, where [N] is the number of pages of the document. *)
Theorem page_numbers
    (W : StandardFonts -> string -> Q -> Q) (textPath textContent : string) (i : nat) :
  let d := render W letter textPath textContent in
  (i < pageCount d)%nat ->
  getPage d i
  = getPage (doc (layoutPass W letter textPath textContent)) i
    ++ [mkRun ("Page " ++ Js.ofNat (i + 1) ++ " of " ++ Js.ofNat (pageCount d))
              50 25 (10 # 1) Helvetica (rgb (1 # 2) (1 # 2) (1 # 2))].
Proof.
  cbv zeta. unfold render.
  set (d0 := doc (layoutPass W letter textPath textContent)).
  assert (E : pageCount (addPageNumbers d0) = pageCount d0)
    by (now rewrite addPageNumbers_drawn).
  rewrite E. intros Hi. now rewrite getPage_addPageNumbers.
Qed.

(** The page number of a one-page document. *)
Lemma page_numbers_witness :
  getPage (render fixedPitch letter "notes.txt" "Hello world") 0
  = getPage (doc (layoutPass fixedPitch letter "notes.txt" "Hello world")) 0
    ++ [mkRun "Page 1 of 1" 50 25 (10 # 1) Helvetica (rgb (1 # 2) (1 # 2) (1 # 2))].
Proof.
  apply (page_numbers fixedPitch "notes.txt" "Hello world" 0).
  vm_compute. lia.
Defined.

(** C9.  Before the first line of a paragraph is drawn, the whole block is
    tested ([y - lines.length * lineHeight < margin]) and moved to a new page
    when it does not fit.  Hence a paragraph of at most 38 lines is drawn as
    one column on one page, and a longer one starts a page, fills it with 38
    lines and goes on at the top of the page after it. *)
Theorem short_paragraph_on_one_page
    (W : StandardFonts -> string -> Q -> Q)
    (textPath textContent : string) (before : list string) (p : string)
    (after : list string) :
  Js.split_blank textContent = before ++ p :: after ->
  nonBlank p = true ->
  let st := fold_left (processParagraph W letter) before (start letter textPath) in
  let ls := linesOf W letter p in
  let whole := drawn (doc (layoutPass W letter textPath textContent)) in
  let fitsBelow := negb (y st - Z.of_nat (List.length ls) * lineHeight <? margin) in
  let page := if fitsBelow then currentPage st else pageCount (doc st) in
  let y0 := if fitsBelow then y st else topOfPage letter in
  ((List.length ls <= 38)%nat ->
     exists more,
       whole = drawn (doc st) ++ column (fontOf p) (sizeOf p) page y0 ls ++ more)
  /\ ((38 < List.length ls)%nat ->
        fitsBelow = false
        /\ exists l39 rest more,
             skipn 38 ls = l39 :: rest
             /\ whole
                = drawn (doc st)
                  ++ column (fontOf p) (sizeOf p) page y0 (firstn 38 ls)
                  ++ (S page, mkRun l39 margin (topOfPage letter)
                                    (sizeOf p) (fontOf p) black) :: more).
Proof.
  intros E Hp. cbv zeta.
  destruct (paragraph_runs W textPath textContent before p after E Hp)
    as (more & D & _).
  destruct (reached W textPath before) as (_ & Hy & _).
  set (st := fold_left (processParagraph W letter) before (start letter textPath)) in *.
  set (ls := linesOf W letter p) in *.
  split.
  - intros Hn. exists more. rewrite D. f_equal. f_equal.
    rewrite (short_block st (fontOf p) (sizeOf p) ls Hy Hn).
    unfold startOf.
    destruct (y st - Z.of_nat (List.length ls) * lineHeight <? margin); reflexivity.
  - intros Hn.
    destruct (long_block st (fontOf p) (sizeOf p) ls Hy Hn)
      as (Hs & _ & l39 & rest & Hsk & P).
    assert (B : (y st - Z.of_nat (List.length ls) * lineHeight <? margin) = true).
    { rewrite lineHeight_eq, margin_eq. apply Z.ltb_lt. lia. }
    rewrite B. cbn [negb]. split; [reflexivity|].
    exists l39, rest. eexists. split; [exact Hsk|].
    rewrite D, Hs, P, top_letter, <- !app_assoc. reflexivity.
Qed.

(** A heading of one line, drawn under the title. *)
Lemma short_paragraph_on_one_page_witness :
  exists more,
    drawn (doc (layoutPass fixedPitch letter "notes.txt" "Hello world"))
    = drawn (doc (start letter "notes.txt"))
      ++ column HelveticaBold (sizeOf "Hello world") 0 697 ["Hello world"] ++ more.
Proof.
  apply (proj1 (short_paragraph_on_one_page fixedPitch "notes.txt" "Hello world"
                  [] "Hello world" [] eq_refl eq_refl)).
  vm_compute. lia.
Defined.

(** C2, as the code has it.  When a paragraph wraps into more than 41 lines,
    the document has at least three pages: the paragraph starts a page of its
    own, its first 38 lines go down that page from 730 to 64, its 39th line
    is drawn at the top of the next page, and the first page ends with the
    run [Page 1 of N], [N] being the number of pages. *)
Theorem long_paragraph_pages
    (W : StandardFonts -> string -> Q -> Q)
    (textPath textContent : string) (before : list string) (p : string)
    (after : list string) :
  Js.split_blank textContent = before ++ p :: after ->
  nonBlank p = true ->
  (41 < List.length (linesOf W letter p))%nat ->
  let st := fold_left (processParagraph W letter) before (start letter textPath) in
  let ls := linesOf W letter p in
  let laid := doc (layoutPass W letter textPath textContent) in
  let d := render W letter textPath textContent in
  (3 <= pageCount d)%nat
  /\ (exists l39 rest more,
        skipn 38 ls = l39 :: rest
        /\ drawn laid
           = drawn (doc st)
             ++ column (fontOf p) (sizeOf p) (pageCount (doc st)) 730 (firstn 38 ls)
             ++ (S (pageCount (doc st)),
                 mkRun l39 margin 730 (sizeOf p) (fontOf p) black) :: more)
  /\ getPage d 0
     = getPage laid 0
       ++ [mkRun ("Page 1 of " ++ Js.ofNat (pageCount d))
                 50 25 (10 # 1) Helvetica (rgb (1 # 2) (1 # 2) (1 # 2))].
Proof.
  intros E Hp Hn. cbv zeta.
  destruct (paragraph_runs W textPath textContent before p after E Hp)
    as (more & D & Pc).
  destruct (reached W textPath before) as (_ & Hy & H1).
  set (st := fold_left (processParagraph W letter) before (start letter textPath)) in *.
  set (ls := linesOf W letter p) in *.
  destruct (long_block st (fontOf p) (sizeOf p) ls Hy ltac:(lia))
    as (Hs & Hpg & l39 & rest & Hsk & P).
  rewrite Hs in *.
  assert (E3 : pageCount (render W letter textPath textContent)
               = pageCount (doc (layoutPass W letter textPath textContent)))
    by (unfold render; now rewrite addPageNumbers_drawn).
  assert (H3 : (3 <= pageCount (doc (layoutPass W letter textPath textContent)))%nat)
    by lia.
  split; [lia|]. split.
  - exists l39, rest. eexists. split; [exact Hsk|].
    rewrite D, P, <- !app_assoc. reflexivity.
  - rewrite E3. unfold render. rewrite getPage_addPageNumbers by lia. reflexivity.
Qed.

(** A paragraph of 42 lines. *)
Lemma long_paragraph_pages_witness :
  (3 <= pageCount (render fixedPitch letter "notes.txt" (wideWords 42)))%nat.
Proof.
  refine (proj1 (long_paragraph_pages fixedPitch "notes.txt" (wideWords 42)
                   [] (wideWords 42) [] _ _ _)).
  - vm_compute. reflexivity.
  - vm_compute. reflexivity.
  - vm_compute. lia.
Defined.

(** C2, counterexample.  A single paragraph of 42 lines gives three pages,
    and the first page, which holds the title only, ends with
    [Page 1 of 3]. *)
Lemma long_paragraph_footer :
  Js.split_blank (wideWords 42) = [wideWords 42]
  /\ List.length (linesOf fixedPitch letter (wideWords 42)) = 42%nat
  /\ pageCount (render fixedPitch letter "notes.txt" (wideWords 42)) = 3%nat
  /\ map text (getPage (render fixedPitch letter "notes.txt" (wideWords 42)) 0)
     = ["notes"; "Page 1 of 3"].
Proof. repeat split; vm_compute; reflexivity. Qed.

(** C1, as the code has it.  Pages are started at two places.  Before the
    first line of a paragraph, the test is made once for the whole block of
    its lines ([startOf]): a new page when
    [y - lines.length * lineHeight < margin].  After each line drawn
    ([advance]): a new page when the lowered cursor is under the margin.  The
    runs of a paragraph, the page count and the cursor after it are those
    this description gives. *)
Theorem page_breaks
    (W : StandardFonts -> string -> Q -> Q)
    (textPath textContent : string) (before : list string) (p : string)
    (after : list string) :
  Js.split_blank textContent = before ++ p :: after ->
  nonBlank p = true ->
  let st := fold_left (processParagraph W letter) before (start letter textPath) in
  let ls := linesOf W letter p in
  let st' := processParagraph W letter st p in
  let first := if y st - Z.of_nat (List.length ls) * lineHeight <? margin
               then (pageCount (doc st), topOfPage letter)
               else (currentPage st, y st) in
  drawn (doc st') = drawn (doc st) ++ placed letter (fontOf p) (sizeOf p) first ls
  /\ currentPage st' = fst (cursorAfter letter first ls)
  /\ pageCount (doc st') = S (currentPage st')
  /\ y st' = snd (cursorAfter letter first ls) - fontSize.
Proof.
  intros _ Hp. cbv zeta.
  destruct (reached W textPath before) as (Ht & _ & _).
  destruct (processParagraph_placed W letter _ p Ht Hp) as (D & C & Y & T).
  unfold startOf in *. repeat split; auto.
Qed.

(** The first paragraph of a short text. *)
Lemma page_breaks_witness :
  drawn (doc (processParagraph fixedPitch letter (start letter "notes.txt") "Hello world"))
  = drawn (doc (start letter "notes.txt"))
    ++ placed letter HelveticaBold (sizeOf "Hello world") (0%nat, 697) ["Hello world"].
Proof.
  apply (proj1 (page_breaks fixedPitch "notes.txt" "Hello world"
                  [] "Hello world" [] eq_refl eq_refl)).
Defined.

(** C1, counterexample.  One paragraph of 36 lines: below the title the
    cursor is at 697, where all 36 lines would fit (the last at 67, above the
    margin), yet a second page is started before the first of them, and the
    first page keeps the title alone. *)
Lemma page_started_with_room_left :
  Js.split_blank (wideWords 36) = [wideWords 36]
  /\ List.length (linesOf fixedPitch letter (wideWords 36)) = 36%nat
  /\ y (start letter "notes.txt") = 697
  /\ (margin <=? 697 - 35 * lineHeight) = true
  /\ pageCount (doc (layoutPass fixedPitch letter "notes.txt" (wideWords 36))) = 2%nat
  /\ map text (getPage (doc (layoutPass fixedPitch letter "notes.txt" (wideWords 36))) 0)
     = ["notes"]
  /\ map PDF.y (firstn 2 (getPage (doc (layoutPass fixedPitch letter "notes.txt"
                                           (wideWords 36))) 1))
     = [730; 712].
Proof. repeat split; vm_compute; reflexivity. Qed.

(** C10.  When the first word of a paragraph (leading white space apart) is
    wider than the usable width, the word loop pushes the empty string
    before it: the lines are the empty line, then the line that begins with
    the word, and both are drawn, on the same page, the empty line one line
    height above the other. *)
Theorem empty_line_before_wide_first_word
    (W : StandardFonts -> string -> Q -> Q)
    (textPath textContent : string) (before : list string) (p : string)
    (after : list string) (w : string) (rest : list string) :
  (forall f s, W f EmptyString s == 0)%Q ->
  Js.split_blank textContent = before ++ p :: after ->
  (Js.split_ws p = w :: rest \/ Js.split_ws p = EmptyString :: w :: rest) ->
  (inject_Z (maxWidth letter) < W (fontOf p) w (sizeOf p))%Q ->
  let st := fold_left (processParagraph W letter) before (start letter textPath) in
  exists l ls page y0 more,
    linesOf W letter p = EmptyString :: l :: ls
    /\ prefix w l = true
    /\ drawn (doc (layoutPass W letter textPath textContent))
       = drawn (doc st)
         ++ (page, mkRun EmptyString margin y0 (sizeOf p) (fontOf p) black)
            :: (page, mkRun l margin (y0 - lineHeight) (sizeOf p) (fontOf p) black)
            :: more.
Proof.
  intros W0 E Hsplit Hwide. cbv zeta.
  assert (Hfit0 : fits W letter (fontOf p) (sizeOf p) EmptyString = true).
  { apply fits_iff. rewrite W0. discriminate. }
  assert (Hnofit : fits W letter (fontOf p) (sizeOf p) w = false).
  { destruct (fits W letter (fontOf p) (sizeOf p) w) eqn:F; [|reflexivity].
    apply fits_iff in F. exfalso. exact (Qlt_not_le _ _ Hwide F). }
  assert (Hw : Js.truthy w = true).
  { destruct w; [|reflexivity]. congruence. }
  assert (Hlines : linesOf W letter p
                   = EmptyString :: wrapWords W letter (fontOf p) (sizeOf p) w rest).
  { unfold linesOf. destruct Hsplit as [-> | ->]; cbn [wrapWords testLineOf Js.truthy].
    - now rewrite Hnofit.
    - now rewrite Hfit0, Hnofit. }
  destruct (wrapWords_head W letter (fontOf p) (sizeOf p) rest w Hw)
    as (l & ls & Hl & Hpre).
  rewrite Hl in Hlines.
  assert (Hp : nonBlank p = true).
  { apply (piece_nonBlank p w); [|exact Hw].
    destruct Hsplit as [-> | ->]; cbn; auto. }
  destruct (paragraph_runs W textPath textContent before p after E Hp)
    as (more & D & _).
  destruct (reached W textPath before) as (_ & Hy & _).
  set (st := fold_left (processParagraph W letter) before (start letter textPath)) in *.
  rewrite Hlines in D. cbn [List.length placed] in D.
  rewrite startOf_second in D by (rewrite ?top_letter; lia).
  cbn [fst snd] in D.
  exists l, ls. do 3 eexists.
  split; [exact Hlines | split; [exact Hpre | exact D]].
Qed.

(** A word of a hundred capitals at the head of a paragraph. *)
Lemma empty_line_before_wide_first_word_witness :
  exists l ls page y0 more,
    linesOf fixedPitch letter wideFirst = EmptyString :: l :: ls
    /\ prefix (copies 100 "W" "") l = true
    /\ drawn (doc (layoutPass fixedPitch letter "notes.txt" wideFirst))
       = drawn (doc (start letter "notes.txt"))
         ++ (page, mkRun EmptyString margin y0
                         (sizeOf wideFirst)
                         (fontOf wideFirst) black)
            :: (page, mkRun l margin (y0 - lineHeight)
                            (sizeOf wideFirst)
                            (fontOf wideFirst) black)
            :: more.
Proof.
  refine (empty_line_before_wide_first_word fixedPitch "notes.txt"
            wideFirst [] wideFirst []
            (copies 100 "W" "") ["a"; "b"] _ _ _ _).
  - exact (width_empty fixedPitch fixedPitch_ok).
  - vm_compute. reflexivity.
  - left. vm_compute. reflexivity.
  - vm_compute. reflexivity.
Defined.

(** C4.  A line of a paragraph is no wider, in the paragraph's font and size,
    than the usable width of 512, unless it is one of the words of the
    paragraph and this word alone is wider; and every word that is wider
    than the usable width is a line by itself, whole. *)
Theorem line_width_bound
    (W : StandardFonts -> string -> Q -> Q) (p : string) :
  MetricOk W ->
  (forall l, In l (linesOf W letter p) ->
     (W (fontOf p) l (sizeOf p) <= inject_Z (width letter - 2 * margin))%Q
     \/ (In l (Js.split_ws p)
         /\ (inject_Z (width letter - 2 * margin) < W (fontOf p) l (sizeOf p))%Q))
  /\ (forall w, In w (Js.split_ws p) ->
        (inject_Z (width letter - 2 * margin) < W (fontOf p) w (sizeOf p))%Q ->
        In w (linesOf W letter p)).
Proof.
  intros M.
  assert (U : 0 <= maxWidth letter) by (vm_compute; discriminate).
  change (width letter - 2 * margin) with (maxWidth letter).
  split.
  - intros l Hl.
    apply (wrapWords_bound W letter (fontOf p) (sizeOf p) (Js.split_ws p)
             (Js.split_ws p) EmptyString); auto.
    + apply incl_refl.
    + left. now apply empty_fits.
  - intros w Hin Hw.
    apply (wrapWords_wide_word W letter M U (fontOf p) (sizeOf p) (sizeOf_nonneg p));
      assumption.
Qed.

(** The word of a hundred capitals is a line of its paragraph. *)
Lemma line_width_bound_witness :
  In (copies 100 "W" "") (linesOf fixedPitch letter wideFirst).
Proof.
  apply (proj2 (line_width_bound fixedPitch wideFirst fixedPitch_ok)).
  - vm_compute. auto.
  - vm_compute. reflexivity.
Defined.

(** C6, as the code has it.  A paragraph is a heading exactly when its
    trimmed length is under 80 and the paragraph as it stands ends with a
    colon, or has no full stop, or is its own upper-casing.  The three short
    examples are classified as stated, a paragraph of 120 letters that ends
    with a colon is no heading, and no paragraph of trimmed length 80 or more
    is one. *)
Theorem heading_rule (p : string) :
  (isHeading p = true <->
     (String.length (Js.trim p) < 80)%nat
     /\ (Js.endsWith p ":" = true
         \/ Js.includes p "." = false
         \/ Js.toUpperCase p = p))
  /\ isHeading "Introduction:" = true
  /\ isHeading "SUMMARY" = true
  /\ isHeading "This is a normal sentence with a period." = false
  /\ isHeading longLabel = false
  /\ ((80 <= String.length (Js.trim p))%nat -> isHeading p = false).
Proof.
  split; [|repeat split; try (vm_compute; reflexivity)].
  - unfold isHeading. rewrite andb_true_iff, !orb_true_iff, negb_true_iff.
    rewrite Nat.ltb_lt, String.eqb_eq. tauto.
  - intros H. unfold isHeading.
    replace (String.length (Js.trim p) <? 80)%nat with false; [reflexivity|].
    symmetry. apply Nat.ltb_ge. exact H.
Qed.

(** C6, counterexample.  The length that is tested is the trimmed one.  A
    text of 79 capitals and a final line feed is one paragraph of length 80,
    and it is a heading; so is the paragraph of 120 code units made of 119
    spaces and a colon. *)
Lemma heading_of_length_80 :
  Js.split_blank capitalsLine = [capitalsLine]
  /\ String.length capitalsLine = 80%nat
  /\ isHeading capitalsLine = true
  /\ isHeading_spec capitalsLine = false
  /\ String.length indentedColon = 120%nat
  /\ Js.endsWith indentedColon ":" = true
  /\ isHeading indentedColon = true.
Proof. repeat split; vm_compute; reflexivity. Qed.



(** ** Further properties *)

(** X1.  A text that is empty or made of white space only gives one page
    that holds the title and the run [Page 1 of 1], and nothing else, with
    any metric; for the file [report.txt] the title is [report]. *)
Theorem blank_input
    (W : StandardFonts -> string -> Q -> Q) (textPath textContent : string) :
  allSpace textContent = true ->
  render W letter textPath textContent
  = mkDoc 1 [(0%nat, mkRun (titleOf textPath) 50 724 (18 # 1) HelveticaBold (rgb 0 0 0));
             (0%nat, mkRun "Page 1 of 1" 50 25 (10 # 1) Helvetica
                           (rgb (1 # 2) (1 # 2) (1 # 2)))]
  /\ titleOf "report.txt" = "report".
Proof.
  intros H. split; [|reflexivity]. unfold render, layoutPass.
  rewrite blank_paragraphs_skipped; [reflexivity|].
  now apply splitBlank_allSpace.
Qed.

(** The empty text. *)
Lemma blank_input_witness :
  render fixedPitch letter "report.txt" EmptyString
  = mkDoc 1 [(0%nat, mkRun "report" 50 724 (18 # 1) HelveticaBold (rgb 0 0 0));
             (0%nat, mkRun "Page 1 of 1" 50 25 (10 # 1) Helvetica
                           (rgb (1 # 2) (1 # 2) (1 # 2)))].
Proof.
  exact (proj1 (blank_input fixedPitch "report.txt" EmptyString eq_refl)).
Defined.


(** X3.  No two runs of the layout pass overprint: in drawing order, each run
    is on a later page than the run before it or on the same page at least
    one line height (18) lower. *)
Theorem lines_do_not_overprint
    (W : StandardFonts -> string -> Q -> Q) (textPath textContent : string) :
  Stepping (drawn (doc (layoutPass W letter textPath textContent))).
Proof.
  unfold layoutPass.
  apply (paragraphs_spaced W letter);
    [apply start_tracked | apply start_spaced].
Qed.

(** ** Facts for the routes *)

Module JsMoreFacts.
Import JsMore.

Lemma substring_whole (t : string) : substring 0 (String.length t) t = t.
Proof. induction t as [|c t IH]; cbn; [reflexivity | now rewrite IH]. Qed.

Lemma substring_skip (a t : string) :
  substring (String.length a) (String.length t) (a ++ t) = t.
Proof. induction a as [|c a IH]; cbn; [apply substring_whole | exact IH]. Qed.

Lemma endsWith_append (a t : string) : Js.endsWith (a ++ t) t = true.
Proof.
  unfold Js.endsWith. rewrite JsFacts.length_append.
  replace (String.length a + String.length t - String.length t)%nat
    with (String.length a) by lia.
  rewrite substring_skip, String.eqb_refl, andb_true_r.
  apply Nat.leb_le. lia.
Qed.

(** [substring] takes its result out of the string. *)
Lemma substring_inside (s : string) : forall n m,
  (n + m <= String.length s)%nat ->
  exists a b, s = (a ++ substring n m s ++ b)%string
              /\ String.length b = (String.length s - n - m)%nat.
Proof.
  induction s as [|c s IH]; intros n m H.
  - exists EmptyString, EmptyString. destruct n, m; cbn in *; split; reflexivity || lia.
  - destruct n as [|n].
    + destruct m as [|m].
      * exists EmptyString, (String c s). split; reflexivity.
      * cbn in H. destruct (IH 0%nat m ltac:(cbn; lia)) as (a & b & E & L).
        assert (Ha : a = EmptyString).
        { destruct a; [reflexivity|]. exfalso.
          apply (f_equal String.length) in E.
          rewrite !JsFacts.length_append in E. cbn in E.
          assert (Hm : String.length (substring 0 m s) = m).
          { clear -H. revert m H. induction s as [|x s IHs]; intros [|m] H; cbn in *;
              try reflexivity; try lia. rewrite IHs; [reflexivity | lia]. }
          lia. }
        subst a. cbn in E. exists EmptyString, b. cbn. split; [now rewrite <- E | lia].
    + cbn in H. destruct (IH n m ltac:(lia)) as (a & b & E & L).
      exists (String c a), b. cbn. split; [now rewrite <- E | lia].
Qed.

Lemma endsWith_inv (s t : string) :
  Js.endsWith s t = true -> exists a, s = (a ++ t)%string.
Proof.
  unfold Js.endsWith. intros H. apply andb_true_iff in H as [Hl He].
  apply Nat.leb_le in Hl. apply String.eqb_eq in He.
  destruct (substring_inside s (String.length s - String.length t) (String.length t))
    as (a & b & E & L); [lia|].
  rewrite He in E. assert (b = EmptyString) by (destruct b; [reflexivity | cbn in L; lia]).
  subst b. rewrite JsFacts.append_nil_r in E. now exists a.
Qed.

Lemma hasChar_append c (a b : string) :
  hasChar c (a ++ b) = hasChar c a || hasChar c b.
Proof.
  induction a as [|x a IH]; cbn; [reflexivity|]. now rewrite IH, orb_assoc.
Qed.

Lemma lastPiece_append c (a t : string) :
  hasChar c t = false -> lastPiece c (a ++ String c t) = t.
Proof.
  intros Ht. induction a as [|x a IH]; cbn.
  - now rewrite Ht, Ascii.eqb_refl.
  - rewrite hasChar_append. cbn. rewrite Ascii.eqb_refl, orb_true_r. exact IH.
Qed.

Lemma lowerChar_dot (x : ascii) :
  Ascii.eqb (lowerChar x) "."%char = Ascii.eqb x "."%char.
Proof. destruct x as [[] [] [] [] [] [] [] []]; reflexivity. Qed.

Lemma lowerChar_idem (x : ascii) : lowerChar (lowerChar x) = lowerChar x.
Proof. destruct x as [[] [] [] [] [] [] [] []]; reflexivity. Qed.

Lemma toLowerCase_idem (s : string) : toLowerCase (toLowerCase s) = toLowerCase s.
Proof. induction s as [|c s IH]; cbn; [reflexivity | now rewrite IH, lowerChar_idem]. Qed.

Lemma hasChar_toLowerCase (s : string) :
  hasChar "."%char (toLowerCase s) = hasChar "."%char s.
Proof. induction s as [|c s IH]; cbn; [reflexivity | now rewrite IH, lowerChar_dot]. Qed.

(** Lower-casing a name lower-cases its extension. *)
Lemma lastPiece_toLowerCase (s : string) :
  lastPiece "."%char (toLowerCase s) = toLowerCase (lastPiece "."%char s).
Proof.
  induction s as [|c s IH]; cbn; [reflexivity|].
  rewrite hasChar_toLowerCase, lowerChar_dot.
  destruct (hasChar "."%char s); [exact IH|].
  destruct (Ascii.eqb c "."%char); reflexivity.
Qed.

Lemma includes_In (l : list string) (s : string) : includes l s = true <-> In s l.
Proof.
  unfold includes. rewrite existsb_exists. split.
  - intros (x & Hx & E). apply String.eqb_eq in E. now subst.
  - intros H. exists s. split; [assumption | apply String.eqb_refl].
Qed.

Lemma hasPathSep_append (a b : string) :
  Js.hasPathSep (a ++ b) = Js.hasPathSep a || Js.hasPathSep b.
Proof.
  induction a as [|x a IH]; cbn; [reflexivity|]. now rewrite IH, orb_assoc.
Qed.



End JsMoreFacts.



Lemma posixJoin_plain (dir : string) : JoinsPlainly posixJoin dir.
Proof. intros seg _ _ _ _. exists dir, "/"%char. split; reflexivity. Qed.

Lemma readFile_written path content fs :
  Convert.readFile path (Convert.writeFile path content fs) = Some content.
Proof. cbn. now rewrite String.eqb_refl. Qed.

Lemma readFile_other p q content fs :
  p <> q -> Convert.readFile q (Convert.writeFile p content fs) = Convert.readFile q fs.
Proof. intros H. cbn. apply String.eqb_neq in H. now rewrite H. Qed.

(** ** The converters under the upload route *)

(** A text conversion reads the upload just written and always succeeds. *)
Lemma convertTextFile_written
    (W : StandardFonts -> string -> Q -> Q) (save : PDFDocument -> string)
    (textPath outputPath content : string) (fs : Convert.FileSystem) :
  Convert.convertTextFile W save textPath outputPath
    (Convert.writeFile textPath content fs)
  = Resolved (Convert.writeFile outputPath (save (render W letter textPath content))
                (Convert.writeFile textPath content fs)).
Proof. unfold Convert.convertTextFile. now rewrite readFile_written. Qed.

(** A dot-free extension decides the suffix tests of a path. *)
Lemma endsWith_ext (a ext e : string) :
  JsMore.hasChar "."%char ext = false -> JsMore.hasChar "."%char e = false ->
  Js.endsWith (a ++ "." ++ ext) ("." ++ e) = String.eqb ext e.
Proof.
  intros Hext He. destruct (String.eqb_spec ext e) as [->|N].
  - apply JsMoreFacts.endsWith_append.
  - destruct (Js.endsWith (a ++ "." ++ ext) ("." ++ e)) eqn:E; [|reflexivity].
    exfalso. apply N.
    apply JsMoreFacts.endsWith_inv in E as (b & E).
    apply (f_equal (JsMore.lastPiece "."%char)) in E.
    change (a ++ "." ++ ext)%string with (a ++ String "."%char ext)%string in E.
    change (b ++ "." ++ e)%string with (b ++ String "."%char e)%string in E.
    now rewrite !JsMoreFacts.lastPiece_append in E.
Qed.

Lemma imageFormatOf_ext (a ext : string) :
  JsMore.hasChar "."%char ext = false ->
  Convert.imageFormatOf (a ++ "." ++ ext)
  = if String.eqb ext "jpg" || String.eqb ext "jpeg" then Some Convert.Jpg
    else if String.eqb ext "png" then Some Convert.Png else None.
Proof.
  intros H. unfold Convert.imageFormatOf.
  change ".jpg" with ("." ++ "jpg")%string.
  change ".jpeg" with ("." ++ "jpeg")%string.
  change ".png" with ("." ++ "png")%string.
  now rewrite !endsWith_ext.
Qed.

(** The name [POST] gives the upload is a plain segment. *)
Lemma upload_segment (join : string -> string -> string) (dir fileId ext : string) :
  JoinsPlainly join dir ->
  Js.hasPathSep fileId = false -> Js.hasPathSep ext = false ->
  JsMore.hasChar "."%char ext = false -> Js.truthy ext = true ->
  exists before c,
    Js.isPathSep c = true
    /\ join dir (fileId ++ "." ++ ext)%string
       = (before ++ String c (fileId ++ "." ++ ext))%string.
Proof.
  intros J Hid Hext Hdot Ht.
  assert (L : JsMore.lastPiece "."%char (fileId ++ "." ++ ext) = ext)
    by (apply (JsMoreFacts.lastPiece_append "."%char fileId ext Hdot)).
  apply J.
  - rewrite !JsMoreFacts.hasPathSep_append. now rewrite Hid, Hext.
  - intros E. rewrite E in L. cbn in L. subst ext. discriminate.
  - intros E. rewrite E in L. cbn in L. subst ext. discriminate.
  - intros E. rewrite E in L. cbn in L. subst ext. discriminate.
Qed.


(** The upload and its PDF never share a path. *)
Lemma upload_paths_differ (join : string -> string -> string) (dir fileId ext : string) :
  JoinsPlainly join dir -> Js.hasPathSep fileId = false ->
  JsMore.includes Convert.supported ext = true ->
  join dir (fileId ++ "." ++ ext)%string <> join dir (fileId ++ ".pdf")%string.
Proof.
  intros J Hid Hsup.
  assert (Hext : Js.hasPathSep ext = false /\ JsMore.hasChar "."%char ext = false
                 /\ Js.truthy ext = true /\ ext <> "pdf").
  { apply JsMoreFacts.includes_In in Hsup. cbn in Hsup.
    repeat (destruct Hsup as [<-|Hsup]; [repeat split; reflexivity || discriminate|]).
    contradiction. }
  destruct Hext as (H1 & H2 & H3 & H4).
  destruct (upload_segment join dir fileId ext J Hid H1 H2 H3) as (b1 & c1 & _ & E1).
  destruct (upload_segment join dir fileId "pdf" J Hid eq_refl eq_refl eq_refl)
    as (b2 & c2 & _ & E2).
  change (fileId ++ ".pdf")%string with (fileId ++ "." ++ "pdf")%string.
  rewrite E1, E2. intros E. apply H4.
  apply (f_equal (JsMore.lastPiece "."%char)) in E.
  change (b1 ++ String c1 (fileId ++ "." ++ ext))%string
    with (b1 ++ (String c1 fileId ++ String "."%char ext))%string in E.
  change (b2 ++ String c2 (fileId ++ "." ++ "pdf"))%string
    with (b2 ++ (String c2 fileId ++ String "."%char "pdf"))%string in E.
  rewrite <- !JsFacts.append_assoc in E.
  now rewrite !JsMoreFacts.lastPiece_append in E.
Qed.

(** ** How many lines a page holds *)

Lemma Stepping_tail e l : Stepping (e :: l) -> Stepping l.
Proof. inversion 1; subst; [constructor | assumption]. Qed.

Lemma Stepping_lower l : forall e,
  Stepping (e :: l) -> Forall (fun e' => (fst e <= fst e')%nat) l.
Proof.
  induction l as [|e2 l IH]; intros e H; [constructor|].
  inversion H as [| |? ? ? Hs Hl]; subst.
  assert (Hle : (fst e <= fst e2)%nat) by (destruct Hs as [Hs|[Hs _]]; lia).
  constructor; [exact Hle|].
  eapply Forall_impl; [|exact (IH e2 Hl)]. cbn. intros; lia.
Qed.

(** The runs of one page go down by a line height or more. *)
Lemma Stepping_page i log :
  Stepping log -> Descending (map snd (filter (onPage i) log)).
Proof.
  induction log as [|e1 l IH]; intros H; [constructor|].
  pose proof (IH (Stepping_tail _ _ H)) as IHl.
  cbn [filter]. destruct (onPage i e1) eqn:E1; [|exact IHl].
  cbn [map]. destruct l as [|e2 l']; [constructor|].
  inversion H as [| |? ? ? Hs Hl]; subst.
  unfold onPage in E1. apply Nat.eqb_eq in E1.
  cbn [filter] in *. destruct (onPage i e2) eqn:E2.
  - cbn [map] in *. constructor; [|exact IHl].
    unfold onPage in E2. apply Nat.eqb_eq in E2.
    destruct Hs as [Hs|[_ Hs]]; [lia | exact Hs].
  - (* the next run is on a later page: so are all that follow *)
    assert (Hlater : (fst e1 < fst e2)%nat).
    { unfold onPage in E2. apply Nat.eqb_neq in E2.
      destruct Hs as [Hs|[Hs _]]; [exact Hs | congruence]. }
    rewrite filter_onPage_none; [constructor|].
    eapply Forall_impl; [|exact (Stepping_lower _ _ Hl)]. cbn. intros; lia.
Qed.

Lemma Descending_depth l :
  Descending l ->
  Forall (fun r => margin <= PDF.y r) l ->
  forall r rest, l = r :: rest ->
    margin + lineHeight * Z.of_nat (List.length rest) <= PDF.y r.
Proof.
  induction 1 as [|r0|r1 r2 l Hd _ IH]; intros Hin r rest E.
  - discriminate.
  - injection E as <- <-. inversion Hin; subst. cbn. lia.
  - injection E as <- <-. inversion Hin as [|? ? _ Hin']; subst.
    specialize (IH Hin' r2 l eq_refl). rewrite lineHeight_eq in *.
    cbn [List.length]. lia.
Qed.

Lemma concat_length_bound {A} (f : nat -> list A) (k : nat) : forall n a,
  (forall i, (List.length (f i) <= k)%nat) ->
  (List.length (List.concat (map f (seq a n))) <= k * n)%nat.
Proof.
  induction n as [|n IH]; intros a H; cbn; [lia|].
  rewrite length_app. specialize (IH (S a) H). specialize (H a). lia.
Qed.

(** ** Properties of the routes and of the form *)


(** X5.  The letter case of a file name does not change what the upload
    handler does, unless the file goes to the placeholder (extensions doc and
    docx), whose page prints the name: the response and the files written are
    those for the lower-cased name. *)
Theorem upload_ignores_letter_case
    (W : StandardFonts -> string -> Q -> Q) (join : string -> string -> string)
    (tmpdir : string) (save : PDFDocument -> string)
    (imagePdf : Convert.ImageFormat -> string -> Completion string)
    (placeholderPdf : string -> Completion string)
    (f : Convert.File) (fileId : string) (fs : Convert.FileSystem) :
  JsMore.includes ["doc"; "docx"]
    (JsMore.toLowerCase (JsMore.lastPiece "." (Convert.name f))) = false ->
  Convert.POST W join tmpdir save imagePdf placeholderPdf (Some f) fileId fs
  = Convert.POST W join tmpdir save imagePdf placeholderPdf
      (Some (Convert.mkFile (JsMore.toLowerCase (Convert.name f)) (Convert.type f)
               (Convert.size f) (Convert.bytes f)))
      fileId fs.
Proof.
  intros Hdoc. unfold Convert.POST.
  cbn [Convert.name Convert.size Convert.bytes].
  rewrite JsMoreFacts.lastPiece_toLowerCase, JsMoreFacts.toLowerCase_idem.
  set (ext := JsMore.toLowerCase (JsMore.lastPiece "." (Convert.name f))) in *.
  destruct (Convert.MAX_FILE_SIZE <? Convert.size f); [reflexivity|].
  destruct (JsMore.includes Convert.supported ext) eqn:Hsup; [|reflexivity].
  cbn [negb].
  destruct (JsMore.includes ["jpg"; "jpeg"; "png"] ext) eqn:Himg; [reflexivity|].
  destruct (JsMore.includes ["txt"; "html"; "rtf"] ext) eqn:Htxt; [reflexivity|].
  exfalso. unfold JsMore.includes, Convert.supported in *. cbn [existsb] in *.
  destruct (String.eqb ext "doc"), (String.eqb ext "docx"), (String.eqb ext "txt"),
    (String.eqb ext "rtf"), (String.eqb ext "html"), (String.eqb ext "jpg"),
    (String.eqb ext "jpeg"), (String.eqb ext "png"); cbn in *; discriminate.
Qed.

(** An image named in capitals. *)
Lemma upload_ignores_letter_case_witness :
  Convert.POST fixedPitch posixJoin "/tmp" sampleSave
    sampleImagePdf samplePlaceholderPdf
    (Some (Convert.mkFile "Photo.JPG" "" 3 "abc")) "0a-1" []
  = Convert.POST fixedPitch posixJoin "/tmp" sampleSave
      sampleImagePdf samplePlaceholderPdf
      (Some (Convert.mkFile "photo.jpg" "" 3 "abc")) "0a-1" [].
Proof.
  exact (upload_ignores_letter_case fixedPitch posixJoin "/tmp"
           sampleSave sampleImagePdf samplePlaceholderPdf (Convert.mkFile "Photo.JPG" "" 3 "abc") "0a-1" []
           eq_refl).
Defined.

(** X6.  For an upload whose lower-cased extension is jpg, jpeg or png, the
    path the handler gives the image always passes the suffix test of
    [convertImageToPdf]: the error [Unsupported image format] is never
    thrown, jpg and jpeg are embedded as JPEG and png as PNG, and the
    outcome is that of the embedding alone. *)
Theorem image_upload_format
    (W : StandardFonts -> string -> Q -> Q) (join : string -> string -> string)
    (tmpdir : string) (save : PDFDocument -> string)
    (imagePdf : Convert.ImageFormat -> string -> Completion string)
    (placeholderPdf : string -> Completion string)
    (f : Convert.File) (fileId : string) (fs : Convert.FileSystem) :
  JoinsPlainly join (Convert.tempDir join tmpdir) ->
  Js.hasPathSep fileId = false ->
  Convert.size f <= Convert.MAX_FILE_SIZE ->
  In (JsMore.toLowerCase (JsMore.lastPiece "." (Convert.name f))) ["jpg"; "jpeg"; "png"] ->
  let ext := JsMore.toLowerCase (JsMore.lastPiece "." (Convert.name f)) in
  let inputPath := join (Convert.tempDir join tmpdir) (fileId ++ "." ++ ext)%string in
  let outputPath := join (Convert.tempDir join tmpdir) (fileId ++ ".pdf")%string in
  let stored := Convert.writeFile inputPath (Convert.bytes f) fs in
  Convert.imageFormatOf inputPath
  = Some (if String.eqb ext "png" then Convert.Png else Convert.Jpg)
  /\ Convert.POST W join tmpdir save imagePdf placeholderPdf (Some f) fileId fs
     = match imagePdf (if String.eqb ext "png" then Convert.Png else Convert.Jpg)
               (Convert.bytes f) with
       | Resolved pdfBytes =>
           (Convert.json (Convert.SuccessBody "File converted successfully" fileId) 200,
            Convert.writeFile outputPath pdfBytes stored)
       | Rejected _ =>
           (Convert.json (Convert.ErrorBody "Failed to process file") 500, stored)
       end.
Proof.
  intros J Hid Hsize Hin. cbv zeta.
  set (ext := JsMore.toLowerCase (JsMore.lastPiece "." (Convert.name f))) in *.
  assert (Hext : Js.hasPathSep ext = false /\ JsMore.hasChar "."%char ext = false
                 /\ Js.truthy ext = true
                 /\ JsMore.includes Convert.supported ext = true
                 /\ JsMore.includes ["jpg"; "jpeg"; "png"] ext = true
                 /\ (if String.eqb ext "jpg" || String.eqb ext "jpeg" then Some Convert.Jpg
                     else if String.eqb ext "png" then Some Convert.Png else None)
                    = Some (if String.eqb ext "png" then Convert.Png else Convert.Jpg)).
  { destruct Hin as [<-|[<-|[<-|[]]]]; repeat split; reflexivity. }
  destruct Hext as (H1 & H2 & H3 & H4 & H5 & H6).
  destruct (upload_segment join _ fileId ext J Hid H1 H2 H3) as (before & c & Hc & E).
  assert (F : Convert.imageFormatOf
                (join (Convert.tempDir join tmpdir) (fileId ++ "." ++ ext)%string)
              = Some (if String.eqb ext "png" then Convert.Png else Convert.Jpg)).
  { rewrite E.
    change (before ++ String c (fileId ++ "." ++ ext))%string
      with (before ++ (String c fileId ++ "." ++ ext))%string.
    rewrite <- JsFacts.append_assoc, imageFormatOf_ext by assumption. exact H6. }
  split; [exact F|].
  unfold Convert.POST.
  replace (Convert.MAX_FILE_SIZE <? Convert.size f) with false
    by (symmetry; apply Z.ltb_ge; exact Hsize).
  fold ext. rewrite H4. cbn [negb]. rewrite H5.
  unfold Convert.convertImageToPdf. rewrite readFile_written, F.
  destruct (imagePdf _ _); reflexivity.
Qed.

(** A photograph named in capitals, with the POSIX [join]. *)
Lemma image_upload_format_witness :
  Convert.imageFormatOf
    (posixJoin (Convert.tempDir posixJoin "/tmp") "0a-1.jpg") = Some Convert.Jpg.
Proof.
  exact (proj1 (image_upload_format fixedPitch posixJoin "/tmp"
                  sampleSave sampleImagePdf samplePlaceholderPdf (Convert.mkFile "Photo.JPG" "" 3 "abc")
                  "0a-1" [] (posixJoin_plain _) eq_refl ltac:(vm_compute; discriminate)
                  ltac:(left; reflexivity))).
Defined.



(** X8.  The form and the upload handler disagree on spreadsheets and
    slides.  A file of at most 10 MB whose lower-cased extension is xls,
    xlsx, ppt or pptx, and whose type is not an image type, is accepted by
    the form and sent to the server, which answers 400 and stores nothing;
    the form then throws the server's message. *)
Theorem office_file_accepted_then_refused
    (W : StandardFonts -> string -> Q -> Q) (join : string -> string -> string)
    (tmpdir : string) (save : PDFDocument -> string)
    (imagePdf : Convert.ImageFormat -> string -> Completion string)
    (placeholderPdf : string -> Completion string)
    (f : Convert.File) (fileId : string) (fs : Convert.FileSystem)
    (st : Convert.FormState) :
  Convert.size f <= Convert.MAX_FILE_SIZE ->
  JsMore.startsWith (Convert.type f) "image/" = false ->
  In (JsMore.toLowerCase (JsMore.lastPiece "." (Convert.name f)))
     ["xls"; "xlsx"; "ppt"; "pptx"] ->
  let ext := JsMore.toLowerCase (JsMore.lastPiece "." (Convert.name f)) in
  let refusal := ("File type ." ++ ext ++ " is not supported")%string in
  Convert.handleFileChange (Some f) st
  = Convert.mkForm (Some f) None (JsMore.firstPiece "." (Convert.name f) ++ ".pdf")%string
  /\ Convert.routeOf f = Convert.ViaServer
  /\ Convert.POST W join tmpdir save imagePdf placeholderPdf (Some f) fileId fs
     = (Convert.json (Convert.ErrorBody refusal) 400, fs)
  /\ Convert.convertUsingServerApi
       (fst (Convert.POST W join tmpdir save imagePdf placeholderPdf (Some f) fileId fs))
     = Rejected refusal.
Proof.
  intros Hsize Htype Hin. cbv zeta.
  set (ext := JsMore.toLowerCase (JsMore.lastPiece "." (Convert.name f))) in *.
  assert (Hext : JsMore.includes Convert.supportedFileTypes ext = true
                 /\ JsMore.includes Convert.supported ext = false
                 /\ ext <> "docx"
                 /\ JsMore.orElse ("File type ." ++ ext ++ " is not supported") "Server error"
                    = ("File type ." ++ ext ++ " is not supported")%string).
  { destruct Hin as [<-|[<-|[<-|[<-|[]]]]]; repeat split; reflexivity || discriminate. }
  destruct Hext as (H1 & H2 & H3 & H4).
  assert (Hsz : (Convert.MAX_FILE_SIZE <? Convert.size f) = false)
    by (apply Z.ltb_ge; exact Hsize).
  assert (P : Convert.POST W join tmpdir save imagePdf placeholderPdf (Some f) fileId fs
              = (Convert.json
                   (Convert.ErrorBody ("File type ." ++ ext ++ " is not supported")) 400,
                 fs)).
  { unfold Convert.POST. rewrite Hsz. fold ext. now rewrite H2. }
  repeat split.
  - unfold Convert.handleFileChange. cbn [Convert.file Convert.error Convert.outputFileName].
    rewrite Hsz. fold ext. now rewrite H1.
  - unfold Convert.routeOf. rewrite Htype.
    destruct (Js.endsWith (Convert.name f) ".docx") eqn:E; [|reflexivity].
    exfalso. apply H3. apply JsMoreFacts.endsWith_inv in E as (a & E).
    subst ext. rewrite E.
    change (a ++ ".docx")%string with (a ++ String "."%char "docx")%string.
    now rewrite JsMoreFacts.lastPiece_append.
  - exact P.
  - rewrite P. cbn. exact (f_equal (@Rejected string) H4).
Qed.

(** A spreadsheet. *)
Lemma office_file_accepted_then_refused_witness :
  Convert.convertUsingServerApi
    (fst (Convert.POST fixedPitch posixJoin "/tmp" sampleSave
            sampleImagePdf samplePlaceholderPdf
            (Some (Convert.mkFile "Budget.xls" "application/vnd.ms-excel" 3 "abc"))
            "0a-1" []))
  = Rejected "File type .xls is not supported".
Proof.
  exact (proj2 (proj2 (proj2
    (office_file_accepted_then_refused fixedPitch posixJoin "/tmp"
       sampleSave sampleImagePdf samplePlaceholderPdf
       (Convert.mkFile "Budget.xls" "application/vnd.ms-excel" 3 "abc") "0a-1" []
       (Convert.mkForm None None EmptyString)
       ltac:(vm_compute; discriminate) eq_refl ltac:(left; reflexivity))))).
Defined.

(** X9.  Whatever the upload handler does not refuse with 400, the form
    accepts as well: it keeps the file, shows no error and proposes as
    output name the part of the name before its first dot, followed by
    [.pdf]. *)
Theorem form_accepts_what_server_accepts
    (W : StandardFonts -> string -> Q -> Q) (join : string -> string -> string)
    (tmpdir : string) (save : PDFDocument -> string)
    (imagePdf : Convert.ImageFormat -> string -> Completion string)
    (placeholderPdf : string -> Completion string)
    (f : Convert.File) (fileId : string) (fs : Convert.FileSystem)
    (st : Convert.FormState) :
  Convert.status
    (fst (Convert.POST W join tmpdir save imagePdf placeholderPdf (Some f) fileId fs))
  <> 400 ->
  Convert.handleFileChange (Some f) st
  = Convert.mkForm (Some f) None (JsMore.firstPiece "." (Convert.name f) ++ ".pdf")%string.
Proof.
  unfold Convert.POST, Convert.handleFileChange.
  cbn [Convert.file Convert.error Convert.outputFileName].
  destruct (Convert.MAX_FILE_SIZE <? Convert.size f); [cbn; congruence|].
  set (ext := JsMore.toLowerCase (JsMore.lastPiece "." (Convert.name f))).
  destruct (JsMore.includes Convert.supported ext) eqn:Hsup; [|cbn; congruence].
  intros _.
  replace (JsMore.includes Convert.supportedFileTypes ext) with true; [reflexivity|].
  unfold JsMore.includes, Convert.supported, Convert.supportedFileTypes in *.
  cbn [existsb] in *.
  destruct (String.eqb ext "doc"), (String.eqb ext "docx"), (String.eqb ext "txt"),
    (String.eqb ext "rtf"), (String.eqb ext "html"), (String.eqb ext "jpg"),
    (String.eqb ext "jpeg"), (String.eqb ext "png"); cbn in *;
    try discriminate; rewrite ?orb_true_r; reflexivity.
Qed.

(** A text file of five bytes. *)
Lemma form_accepts_what_server_accepts_witness :
  Convert.handleFileChange (Some (Convert.mkFile "my.notes.txt" "text/plain" 5 "hello"))
    (Convert.mkForm None (Some "earlier") EmptyString)
  = Convert.mkForm (Some (Convert.mkFile "my.notes.txt" "text/plain" 5 "hello")) None
      "my.pdf".
Proof.
  apply (form_accepts_what_server_accepts fixedPitch posixJoin "/tmp"
           sampleSave sampleImagePdf samplePlaceholderPdf
           (Convert.mkFile "my.notes.txt" "text/plain" 5 "hello") "0a-1" []).
  vm_compute. discriminate.
Defined.



(** X11.  A page holds at most 38 runs of the layout pass, the title
    included, so a document of [N] pages holds at most [38 * N] of them. *)
Theorem page_capacity
    (W : StandardFonts -> string -> Q -> Q) (textPath textContent : string) (i : nat) :
  let laid := doc (layoutPass W letter textPath textContent) in
  (List.length (getPage laid i) <= 38)%nat
  /\ (List.length (drawn laid) <= 38 * pageCount laid)%nat.
Proof.
  cbv zeta.
  assert (Hpage : forall j,
            (List.length (getPage (doc (layoutPass W letter textPath textContent)) j)
             <= 38)%nat).
  { intros j. unfold getPage.
    pose proof (paragraphs_spaced W letter (Js.split_blank textContent) _
                  (start_tracked letter textPath) (start_spaced letter textPath)) as [S _].
    fold (layoutPass W letter textPath textContent) in S.
    pose proof (Stepping_page j _ S) as D.
    pose proof (paragraphs_inside W (Js.split_blank textContent) _
                  (start_tracked letter textPath) (start_top letter textPath)) as I.
    fold (layoutPass W letter textPath textContent) in I.
    assert (I0 : Forall (fun e => inside letter (snd e))
                   (drawn (doc (start letter textPath)))).
    { constructor; [|constructor]. split; vm_compute; discriminate. }
    specialize (I I0).
    assert (In' : Forall (fun r => inside letter r)
                    (map snd (filter (onPage j)
                       (drawn (doc (layoutPass W letter textPath textContent)))))).
    { apply Forall_map. apply Forall_forall. intros e He.
      apply filter_In in He as [He _]. rewrite Forall_forall in I. now apply I. }
    destruct (map snd (filter (onPage j)
                (drawn (doc (layoutPass W letter textPath textContent)))))
      as [|r rest] eqn:E; [cbn; lia|].
    assert (Hlow : Forall (fun r0 => margin <= PDF.y r0) (r :: rest))
      by (eapply Forall_impl; [|exact In']; intros r0 [H _]; exact H).
    pose proof (Descending_depth _ D Hlow r rest eq_refl) as Hd.
    inversion In' as [|? ? [_ Hr] _]; subst.
    rewrite top_letter in Hr. rewrite lineHeight_eq, margin_eq in Hd.
    cbn [List.length]. lia. }
  split; [apply Hpage|].
  rewrite <- (length_map snd), <- readingOrder_layoutPass.
  unfold readingOrder. apply concat_length_bound. exact Hpage.
Qed.

(** X12.  A download succeeds exactly when the upload did.  When no PDF was
    stored under an identifier before, the download of this identifier after
    an upload answers 200 with a stored file if the upload answered 200, and
    404 if the upload was refused or failed: the upload that a failed
    conversion leaves behind is never served. *)
Theorem download_follows_upload
    (W : StandardFonts -> string -> Q -> Q) (join : string -> string -> string)
    (tmpdir : string) (save : PDFDocument -> string)
    (imagePdf : Convert.ImageFormat -> string -> Completion string)
    (placeholderPdf : string -> Completion string)
    (file : option Convert.File) (fileId : string) (fs : Convert.FileSystem) :
  JoinsPlainly join (Convert.tempDir join tmpdir) ->
  Js.hasPathSep fileId = false -> fileId <> EmptyString ->
  Convert.readFile (join (Convert.tempDir join tmpdir) (fileId ++ ".pdf")%string) fs = None ->
  let uploaded := Convert.POST W join tmpdir save imagePdf placeholderPdf file fileId fs in
  (Convert.status (fst uploaded) = 200 ->
   exists pdfBytes,
     Convert.GET join tmpdir (Some fileId) (snd uploaded)
     = Convert.mkResponse 200
         [("Content-Type", "application/pdf");
          ("Content-Disposition", Convert.contentDisposition)]
         (Convert.FileBody pdfBytes))
  /\ (Convert.status (fst uploaded) <> 200 ->
      Convert.GET join tmpdir (Some fileId) (snd uploaded)
      = Convert.json (Convert.ErrorBody "File not found") 404).
Proof.
  intros J Hid Hne Hfresh. cbv zeta.
  assert (Ht : Js.truthy fileId = true) by (destruct fileId; [congruence | reflexivity]).
  assert (Hmiss : Convert.GET join tmpdir (Some fileId) fs
                  = Convert.json (Convert.ErrorBody "File not found") 404).
  { unfold Convert.GET, Convert.existsSync. now rewrite Ht, Hfresh. }
  unfold Convert.POST.
  destruct file as [f|]; [|cbn [fst snd]; split; [discriminate | auto]].
  destruct (Convert.MAX_FILE_SIZE <? Convert.size f);
    [cbn [fst snd]; split; [discriminate | auto]|].
  set (ext := JsMore.toLowerCase (JsMore.lastPiece "." (Convert.name f))).
  destruct (JsMore.includes Convert.supported ext) eqn:Hsup; cbn [negb];
    [|cbn [fst snd]; split; [discriminate | auto]].
  set (inputPath := join _ (fileId ++ "." ++ ext)%string).
  set (outputPath := join _ (fileId ++ ".pdf")%string) in *.
  set (fs1 := Convert.writeFile inputPath (Convert.bytes f) fs).
  assert (Hfail : Convert.GET join tmpdir (Some fileId) fs1
                  = Convert.json (Convert.ErrorBody "File not found") 404).
  { unfold Convert.GET, Convert.existsSync. rewrite Ht. cbn [negb].
    fold outputPath. subst fs1. rewrite readFile_other, Hfresh; [reflexivity|].
    now apply upload_paths_differ. }
  match goal with
  | |- context [match ?c with Resolved _ => _ | Rejected _ => _ end] =>
      assert (Hc : (exists pdf, c = Resolved (Convert.writeFile outputPath pdf fs1))
                   \/ exists e, c = Rejected e);
      [|destruct Hc as [(pdf & ->)|(e & ->)]]
  end.
  { destruct (JsMore.includes ["jpg"; "jpeg"; "png"] ext).
    - unfold Convert.convertImageToPdf. subst fs1. rewrite readFile_written.
      destruct (Convert.imageFormatOf inputPath); [|right; eauto].
      destruct (imagePdf _ _); [left | right]; eauto.
    - destruct (JsMore.includes ["txt"; "html"; "rtf"] ext).
      + subst fs1. rewrite convertTextFile_written. left. eauto.
      + unfold Convert.createPlaceholderPdf.
        destruct (placeholderPdf _); [left | right]; eauto. }
  - cbn [fst snd]. split; [|cbn; congruence]. intros _. exists pdf.
    unfold Convert.GET, Convert.existsSync. rewrite Ht. cbn [negb].
    fold outputPath. now rewrite readFile_written.
  - cbn [fst snd]. split; [cbn; discriminate | auto].
Qed.

(** An upload too large to be taken, then the download of its identifier. *)
Lemma download_follows_upload_witness :
  Convert.GET posixJoin "/tmp" (Some "0a-1")
    (snd (Convert.POST fixedPitch posixJoin "/tmp" sampleSave
            sampleImagePdf samplePlaceholderPdf
            (Some (Convert.mkFile "big.txt" "text/plain" 10485761 "abc")) "0a-1" []))
  = Convert.json (Convert.ErrorBody "File not found") 404.
Proof.
  apply (proj2 (download_follows_upload fixedPitch posixJoin "/tmp"
                  sampleSave sampleImagePdf samplePlaceholderPdf
                  (Some (Convert.mkFile "big.txt" "text/plain" 10485761 "abc")) "0a-1" []
                  (posixJoin_plain _) eq_refl ltac:(discriminate) eq_refl)).
  vm_compute. discriminate.
Defined.
